(** * pyglet.model: decoder resolution, Model transforms and batches,
      rendering groups.

    A shallow embedding of [pyglet/model/__init__.py].  Python objects that
    are mutated through several references (rendering groups held by a
    [Model]) live in an explicit store; file objects carry their read
    position and the number of [close()] calls they received; calls into
    external collaborators (decoders, batches, the GL binding) are recorded
    in traces. *)

From stdpp Require Import base option list strings gmap.
From Stdlib Require Import ZArith.
Local Open Scope Z_scope.

(* ===================================================================== *)
(** ** The codec interface used by [load] *)
(* ===================================================================== *)

Module Codecs.

(** Modelled from the spec: the class [ModelDecodeException], which
    [pyglet.model] imports from [pyglet.model.codecs].  A decode failure
    is a value carrying a human-readable message and a numeric exception
    priority used to rank failures. *)
Record ModelDecodeException : Type := {
  message : string;
  exception_priority : Z
}.

(** The exceptions that leave [load]: a decode failure, the
    [io.UnsupportedOperation] of a [seek] on a stream that cannot seek, or
    any other exception raised by a decoder (only its class name is
    kept). *)
Inductive Exception : Type :=
| DecodeError (e : ModelDecodeException)
| UnsupportedOperation
| OtherError (class_name : string).

End Codecs.
Export Codecs.

(* ===================================================================== *)
(** ** File objects *)
(* ===================================================================== *)

(** A binary stream: whether it has a [seek] attribute, whether a call of
    [seek] succeeds on it (a pipe, a socket or an HTTP response has the
    attribute and raises [io.UnsupportedOperation]), its bytes, the
    current read position, and how many times [close()] was called on
    it. *)
Record PyFile : Type := {
  has_seek : bool;
  seekable : bool;
  content : list Byte.byte;
  position : N;
  close_calls : nat
}.

Definition set_position (f : PyFile) (p : N) : PyFile :=
  {| has_seek := has_seek f; seekable := seekable f; content := content f;
     position := p; close_calls := close_calls f |}.

(** [file.seek(offset)]: [None] stands for the [io.UnsupportedOperation]
    raised by a stream that cannot seek. *)
Definition seek (f : PyFile) (offset : N) : option PyFile :=
  if seekable f then Some (set_position f offset) else None.

(** [file.close()] *)
Definition close (f : PyFile) : PyFile :=
  {| has_seek := has_seek f; seekable := seekable f; content := content f;
     position := position f; close_calls := S (close_calls f) |}.

(** [file.read()]: the bytes from the current position to the end; the
    position moves to the end of the stream. *)
Definition read (f : PyFile) : list Byte.byte * PyFile :=
  (drop (N.to_nat (position f)) (content f),
   set_position f (N.max (position f) (N.of_nat (length (content f))))).

(** [BytesIO(data)]: a fresh rewindable in-memory stream at offset 0. *)
Definition BytesIO (data : list Byte.byte) : PyFile :=
  {| has_seek := true; seekable := true; content := data;
     position := 0%N; close_calls := 0 |}.

(** [open(filename, 'rb')] over a file system given as a partial map from
    paths to the bytes behind them and whether the opened object can seek
    (a regular file can, a FIFO or a character device cannot); [None]
    stands for the [OSError] of a failed open. *)
Definition open (fs : string -> option (list Byte.byte * bool))
    (filename : string) : option PyFile :=
  match fs filename with
  | Some (data, can_seek) =>
      Some {| has_seek := true; seekable := can_seek; content := data;
              position := 0%N; close_calls := 0 |}
  | None => None
  end.

(* ===================================================================== *)
(** ** [load]: the decoder resolution protocol *)
(* ===================================================================== *)

Section Load.

(** What a decoder builds, and the optional batch handed through. *)
Context {Model Batch : Type}.

(** What one call [decoder.decode(file, filename, batch)] does. *)
Inductive decode_outcome : Type :=
| Decoded (m : Model)
| Failed (e : ModelDecodeException)
| Crashed (class_name : string).

(** A decoder plugin.  [decode] sees the bytes of the stream and the
    position it is invoked at, and leaves the stream at a new position. *)
Record ModelDecoder : Type := {
  decoder_name : string;
  decode : list Byte.byte -> N -> string -> option Batch
           -> decode_outcome * N
}.

(** What [load] does to the stream it works on, in program order. *)
Inductive event : Type :=
| EvDecode (name : string) (at_position : N)
| EvSeek (offset : N)
| EvClose.

(** How a call of [load] ends. *)
Inductive load_result : Type :=
| Returned (m : Model)                       (* lines 124, 130 *)
| Propagated (x : Exception)                 (* uncaught: 124-135 *)
| RaisedNoDecoders (msg : string)            (* line 138 *)
| RaisedCaptured (e : ModelDecodeException)  (* line 139 *)
| OpenFailed.                                (* line 117 *)

Definition no_decoders_message : string :=
  "No decoders are available for this model format.".

(** [not first_exception]: [None] is falsy, an exception object is
    truthy. *)
Definition py_not (first_exception : option ModelDecodeException) : bool :=
  match first_exception with
  | None => true
  | Some _ => false
  end.

(** [first_exception.exception_priority < e.exception_priority], which
    Python evaluates only when [first_exception] is an exception. *)
Definition outranked (first_exception : option ModelDecodeException)
    (e : ModelDecodeException) : bool :=
  match first_exception with
  | Some fe => exception_priority fe <? exception_priority e
  | None => false
  end.

(** Lines 132-134: the update of [first_exception] in the handler. *)
Definition retain (first_exception : option ModelDecodeException)
    (e : ModelDecodeException) : option ModelDecodeException :=
  if py_not first_exception || outranked first_exception e
  then Some e
  else first_exception.

(** How the [for] loop of lines 127-135 is left: by the [return] of line
    130, by an exception of [decode] that the handler does not catch, by
    the exception of [file.seek(0)] in the handler, or at its end. *)
Inductive loop_exit : Type :=
| LoopReturn (m : Model)
| LoopRaise (class_name : string)
| LoopSeekRaise
| LoopDone (first_exception : option ModelDecodeException).

Record loop_state : Type := {
  exit : loop_exit;
  stream : PyFile;
  trace : list event
}.

Section Call.
Variables (filename : string) (batch : option Batch).

(** One [decoder.decode(file, filename, batch)] call on the stream. *)
Definition call_decode (d : ModelDecoder) (file : PyFile)
  : decode_outcome * PyFile :=
  let r := decode d (content file) (position file) filename batch in
  (r.1, set_position file r.2).

(** The stream handed to the next candidate after [d] failed on
    [file] and line 135 rewound it. *)
Definition rewound (d : ModelDecoder) (file : PyFile) : PyFile :=
  set_position (call_decode d file).2 0%N.

(** Lines 127-135. *)
Fixpoint try_decoders (decoders : list ModelDecoder)
    (first_exception : option ModelDecodeException) (file : PyFile)
  : loop_state :=
  match decoders with
  | [] => {| exit := LoopDone first_exception; stream := file;
             trace := [] |}
  | decoder :: rest =>
      let here := EvDecode (decoder_name decoder) (position file) in
      match call_decode decoder file with
      | (Decoded model, file1) =>
          {| exit := LoopReturn model; stream := file1;
             trace := [here] |}
      | (Crashed x, file1) =>
          {| exit := LoopRaise x; stream := file1; trace := [here] |}
      | (Failed e, file1) =>
          let first_exception := retain first_exception e in
          match seek file1 0%N with
          | Some file2 =>
              let k := try_decoders rest first_exception file2 in
              {| exit := exit k; stream := stream k;
                 trace := here :: EvSeek 0%N :: trace k |}
          | None =>
              {| exit := LoopSeekRaise; stream := file1;
                 trace := [here; EvSeek 0%N] |}
          end
      end
  end.

(** Lines 137-139: [not first_exception] holds for [None] only. *)
Definition after_loop (x : loop_exit) : load_result :=
  match x with
  | LoopReturn m => Returned m
  | LoopRaise c => Propagated (OtherError c)
  | LoopSeekRaise => Propagated UnsupportedOperation
  | LoopDone None => RaisedNoDecoders no_decoders_message
  | LoopDone (Some first_exception) => RaisedCaptured first_exception
  end.

(** Lines 122-141: the [try] block with its [finally]. *)
Definition load_body (get_decoders : string -> list ModelDecoder)
    (decoder : option ModelDecoder) (file : PyFile)
  : load_result * PyFile * list event :=
  match decoder with
  | Some d =>
      let here := EvDecode (decoder_name d) (position file) in
      let r := call_decode d file in
      (match r.1 with
       | Decoded m => Returned m
       | Failed e => Propagated (DecodeError e)
       | Crashed c => Propagated (OtherError c)
       end, close r.2, [here; EvClose])
  | None =>
      let k := try_decoders (get_decoders filename) None file in
      (after_loop (exit k), close (stream k), trace k ++ [EvClose])
  end.

End Call.

(** The outcome of a whole call: the result, the final state of the
    stream [load] worked on, the caller's stream when it was replaced by
    an in-memory copy, and the trace on the working stream. *)
Record load_outcome : Type := {
  result : load_result;
  working : option PyFile;
  replaced : option PyFile;
  events : list event
}.

(** Lines 116-120: the stream to work on, and the caller's stream when
    it had to be copied into memory; [None] when [open] fails. *)
Definition acquire (fs : string -> option (list Byte.byte * bool))
    (filename : string) (file : option PyFile)
  : option (PyFile * option PyFile) :=
  let opened :=
    match file with
    | Some f => Some f
    | None => open fs filename
    end in
  match opened with
  | None => None
  | Some f =>
      if has_seek f then Some (f, None)
      else let r := read f in Some (BytesIO r.1, Some r.2)
  end.

(** [load(filename, file=None, decoder=None, batch=None)]. *)
Definition load (fs : string -> option (list Byte.byte * bool))
    (get_decoders : string -> list ModelDecoder)
    (filename : string) (file : option PyFile)
    (decoder : option ModelDecoder) (batch : option Batch)
  : load_outcome :=
  match acquire fs filename file with
  | None => {| result := OpenFailed; working := None; replaced := None;
               events := [] |}
  | Some (file1, original) =>
      let '(res, file2, tr) :=
        load_body filename batch get_decoders decoder file1 in
      {| result := res; working := Some file2; replaced := original;
         events := tr |}
  end.

(** *** Vocabulary for statements about [load] *)

(** The position at which the candidate of index [i] is invoked on a
    stream that [load] received at the position of [file]. *)
Definition attempt_position (file : PyFile) (i : nat) : N :=
  match i with
  | O => position file
  | S _ => 0%N
  end.

(** What the candidate of index [i] does when it is invoked there. *)
Definition outcome_at (filename : string) (batch : option Batch)
    (file : PyFile) (i : nat) (d : ModelDecoder) : decode_outcome :=
  (decode d (content file) (attempt_position file i) filename batch).1.

(** The attempt that [load] makes with the candidate of index [i]. *)
Definition attempt_of (file : PyFile) (i : nat) (d : ModelDecoder)
  : string * N :=
  (decoder_name d, attempt_position file i).

(** The decode attempts of a trace: who was invoked, and where. *)
Definition attempts (tr : list event) : list (string * N) :=
  omap (fun ev => match ev with
                  | EvDecode n p => Some (n, p)
                  | _ => None
                  end) tr.

(** The events of a failed attempt: the decode call and the rewind. *)
Definition failed_attempt (a : string * N) : list event :=
  [EvDecode a.1 a.2; EvSeek 0%N].

(** [e] is the first failure of highest priority in [es], at index
    [i]. *)
Definition first_highest (es : list ModelDecodeException) (i : nat)
    (e : ModelDecodeException) : Prop :=
  es !! i = Some e /\
  (forall j e', es !! j = Some e' ->
                exception_priority e' <= exception_priority e) /\
  (forall j e', (j < i)%nat -> es !! j = Some e' ->
                exception_priority e' < exception_priority e).

End Load.

Arguments decode_outcome : clear implicits.
Arguments ModelDecoder : clear implicits.
Arguments load_result : clear implicits.
Arguments loop_exit : clear implicits.
Arguments loop_state : clear implicits.
Arguments load_outcome : clear implicits.

(* ===================================================================== *)
(** ** External collaborators: numbers, matrices, builtins, GL *)
(* ===================================================================== *)

(** The three keyword arguments [x=1], [y=1], [z=1] of [Mat4.rotate]. *)
Inductive axis : Type := AxisX | AxisY | AxisZ.

(** [math.radians] and the operations of [pyglet.math.Mat4] that the module
    calls.  Both are defined outside [pyglet.model] and compute on
    floating-point numbers, so they are an interface: [of_int] is the
    conversion of a Python [int] to [float], [Mat4_new] is [Mat4()],
    [matmul] is the operator [@]. *)
Class MathLib : Type := {
  float : Type;
  of_int : Z -> float;
  radians : float -> float;
  Mat4 : Type;
  Mat4_new : Mat4;
  from_translation : float -> float -> float -> Mat4;
  rotate : Mat4 -> float -> axis -> Mat4;
  matmul : Mat4 -> Mat4 -> Mat4
}.

(** A reference to a Python object: [None] or an allocated object. *)
Inductive pyref : Type :=
| RefNone
| Ref (address : positive).

#[global] Instance pyref_eq_dec : EqDecision pyref.
Proof. solve_decision. Defined.

Section Values.
Context `{MathLib}.

(** The Python values that flow through the transform properties and
    into [hash]. *)
#[warnings="-register-all"]
Inductive pyval : Type :=
| PyNone
| PyInt (n : Z)
| PyFloat (x : float)
| PyTuple (items : list pyval).

(** The number behind a value, where there is one. *)
Definition as_float (v : pyval) : option float :=
  match v with
  | PyInt n => Some (of_int n)
  | PyFloat x => Some x
  | _ => None
  end.

(** [v[i]]: defined on a tuple with more than [i] items. *)
Definition getitem (v : pyval) (i : nat) : option pyval :=
  match v with
  | PyTuple items => items !! i
  | _ => None
  end.

(** [radians(v[i])] *)
Definition radians_item (v : pyval) (i : nat) : option float :=
  radians <$> (getitem v i ≫= as_float).

(** [Mat4.from_translation( *v )] with a sequence of three numbers.  Any
    other argument list is outside the model ([None]). *)
Definition from_translation_star (v : pyval) : option Mat4 :=
  match v with
  | PyTuple [a; b; c] =>
      x ← as_float a; y ← as_float b; z ← as_float c;
      Some (from_translation x y z)
  | _ => None
  end.

(** The builtins [id] and [hash]. *)
Class Builtins : Type := {
  id : pyref -> Z;
  hash : pyval -> Z
}.

End Values.

(** Constants of [pyglet.gl]. *)
Definition GL_TRIANGLES : Z := 4.
Definition GL_TEXTURE0 : Z := 33984.

(** A shader program: one of the two class-level defaults, or another
    program object. *)
Inductive ShaderProgram : Type :=
| TexturedDefaultProgram
| MaterialDefaultProgram
| OtherProgram (address : positive).

(** A texture, as far as the groups look at it. *)
Record Texture : Type := {
  texture_id : Z;
  texture_target : Z
}.

(** The calls a group makes into the GL binding. *)
Inductive gl_call `{MathLib} : Type :=
| glActiveTexture (unit : Z)
| glBindTexture (target : Z) (texture : Z)
| program_use (p : ShaderProgram)
| view_assign (p : ShaderProgram) (block : string) (view : Mat4).

(* ===================================================================== *)
(** ** Material *)
(* ===================================================================== *)

Record Material `{MathLib} : Type := {
  name : string;
  diffuse : list float;
  ambient : list float;
  specular : list float;
  emission : list float;
  shininess : float;
  texture_name : option string
}.

(* ===================================================================== *)
(** ** Rendering groups *)
(* ===================================================================== *)

Module BaseMaterialGroup.
Section Defs.
Context `{MathLib}.

(** The attributes of a group; [parent] is inherited from
    [graphics.Group]. *)
Record t : Type := {
  parent : pyref;
  material : Material;
  rotation : pyval;
  translation : pyval;
  program : ShaderProgram
}.

(** [self.rotation = values] and [self.translation = values]. *)
Definition set_rotation (values : pyval) (self : t) : t :=
  {| parent := parent self; material := material self;
     rotation := values; translation := translation self;
     program := program self |}.

Definition set_translation (values : pyval) (self : t) : t :=
  {| parent := parent self; material := material self;
     rotation := rotation self; translation := values;
     program := program self |}.

(** [__init__], given the class attribute [_default_program] of the
    class being instantiated; [super().__init__()] leaves [parent] at
    [None]. *)
Definition __init__ (_default_program : ShaderProgram)
    (material : Material) : t :=
  {| parent := RefNone;
     material := material;
     rotation := PyTuple [PyInt 0; PyInt 0; PyInt 0];
     translation := PyTuple [PyInt 0; PyInt 0; PyInt 0];
     program := _default_program |}.

(** The matrix [view] of lines 255-259; [None] when an argument is not
    of the expected shape. *)
Definition view_matrix (self : t) : option Mat4 :=
  translate ← from_translation_star (translation self);
  a0 ← radians_item (rotation self) 0;
  let rotate_x := rotate Mat4_new a0 AxisX in
  a1 ← radians_item (rotation self) 1;
  let rotate_y := rotate Mat4_new a1 AxisY in
  a2 ← radians_item (rotation self) 2;
  let rotate_z := rotate Mat4_new a2 AxisZ in
  Some (matmul (matmul (matmul rotate_z rotate_y) rotate_x) translate).

(** [_set_modelview_matrix]: the write into
    [self.program.uniform_buffers['WindowBlock']]. *)
Definition _set_modelview_matrix (self : t) : option gl_call :=
  view ← view_matrix self;
  Some (view_assign (program self) "WindowBlock" view).

End Defs.
End BaseMaterialGroup.

(** What running a method did: the GL calls made, and whether it raised. *)
Record gl_run `{MathLib} : Type := {
  calls : list gl_call;
  raised : bool
}.

Definition then_modelview `{MathLib} (before : list gl_call)
    (upload : option gl_call) : gl_run :=
  match upload with
  | Some c => {| calls := before ++ [c]; raised := false |}
  | None => {| calls := before; raised := true |}
  end.

(** The answer of an [__eq__] method. *)
Inductive eq_answer : Type :=
| Answer (b : bool)
| NotImplemented.

Module TexturedMaterialGroup.
Section Defs.
Context `{MathLib}.

Record t : Type := {
  base : BaseMaterialGroup.t;
  texture : Texture
}.

Definition _default_program : ShaderProgram := TexturedDefaultProgram.

Definition __init__ (material : Material) (texture : Texture) : t :=
  {| base := BaseMaterialGroup.__init__ _default_program material;
     texture := texture |}.

Definition set_state (self : t) : gl_run :=
  then_modelview
    [glActiveTexture GL_TEXTURE0;
     glBindTexture (texture_target (texture self))
                   (texture_id (texture self));
     program_use (BaseMaterialGroup.program (base self))]
    (BaseMaterialGroup._set_modelview_matrix (base self)).

Definition unset_state (self : t) : list gl_call :=
  [glBindTexture (texture_target (texture self)) 0].

Definition __eq__ {Other : Type} (self : t) (other : Other) : eq_answer :=
  Answer false.

(** The object handed to [hash] in [__hash__]. *)
Definition hash_argument `{!Builtins} (self : t) : pyval :=
  PyTuple [PyInt (id (BaseMaterialGroup.parent (base self)));
           PyInt (texture_id (texture self));
           PyInt (texture_target (texture self))].

Definition __hash__ `{!Builtins} (self : t) : Z :=
  hash (hash_argument self).

End Defs.
End TexturedMaterialGroup.

Module MaterialGroup.
Section Defs.
Context `{MathLib}.

Record t : Type := {
  base : BaseMaterialGroup.t
}.

Definition _default_program : ShaderProgram := MaterialDefaultProgram.

Definition __init__ (material : Material) : t :=
  {| base := BaseMaterialGroup.__init__ _default_program material |}.

Definition set_state (self : t) : gl_run :=
  then_modelview
    [program_use (BaseMaterialGroup.program (base self))]
    (BaseMaterialGroup._set_modelview_matrix (base self)).

Definition __eq__ {Other : Type} (self : t) (other : Other) : eq_answer :=
  Answer false.

(** The object handed to [hash] in [__hash__]: [(id(self.parent))] is a
    parenthesised integer. *)
Definition hash_argument `{!Builtins} (self : t) : pyval :=
  PyInt (id (BaseMaterialGroup.parent (base self))).

Definition __hash__ `{!Builtins} (self : t) : Z :=
  hash (hash_argument self).

End Defs.
End MaterialGroup.

(* ===================================================================== *)
(** ** Group objects in the store, and the operator [==] *)
(* ===================================================================== *)

Section Objects.
Context `{MathLib}.

(** An instance of one of the two concrete group classes. *)
Inductive Group : Type :=
| Textured (g : TexturedMaterialGroup.t)
| Untextured (g : MaterialGroup.t).

Definition group_base (g : Group) : BaseMaterialGroup.t :=
  match g with
  | Textured t => TexturedMaterialGroup.base t
  | Untextured m => MaterialGroup.base m
  end.

Definition map_base (f : BaseMaterialGroup.t -> BaseMaterialGroup.t)
    (g : Group) : Group :=
  match g with
  | Textured t =>
      Textured {| TexturedMaterialGroup.base :=
                    f (TexturedMaterialGroup.base t);
                  TexturedMaterialGroup.texture :=
                    TexturedMaterialGroup.texture t |}
  | Untextured m =>
      Untextured {| MaterialGroup.base := f (MaterialGroup.base m) |}
  end.

(** An attribute assignment on the group object at address [l]. *)
Definition update_object (upd : BaseMaterialGroup.t -> BaseMaterialGroup.t)
    (store : gmap positive Group) (l : positive) : gmap positive Group :=
  alter (map_base upd) l store.

(** The object at address [l] exists and its attributes satisfy [P]. *)
Definition object_satisfies (P : BaseMaterialGroup.t -> Prop)
    (store : gmap positive Group) (l : positive) : Prop :=
  exists g, store !! l = Some g /\ P (group_base g).

(** [group.set_state()], dispatched on the class of the object. *)
Definition set_state (g : Group) : gl_run :=
  match g with
  | Textured t => TexturedMaterialGroup.set_state t
  | Untextured m => MaterialGroup.set_state m
  end.

(** The calls that [set_state] makes before it turns to the matrix. *)
Definition bindings (g : Group) : list gl_call :=
  match g with
  | Textured t =>
      [glActiveTexture GL_TEXTURE0;
       glBindTexture (texture_target (TexturedMaterialGroup.texture t))
                     (texture_id (TexturedMaterialGroup.texture t));
       program_use (BaseMaterialGroup.program
                      (TexturedMaterialGroup.base t))]
  | Untextured m =>
      [program_use (BaseMaterialGroup.program (MaterialGroup.base m))]
  end.

(** Whether a call is an assignment to [view]. *)
Definition is_view_assign (c : gl_call) : bool :=
  match c with
  | view_assign _ _ _ => true
  | _ => false
  end.

(** The texture bound to [target] after a sequence of GL calls, given
    the one bound before: the last [glBindTexture] on [target] decides. *)
Definition bound_texture (target : Z) (before : Z) (cs : list gl_call)
  : Z :=
  foldl (fun bound c =>
           match c with
           | glBindTexture t texture =>
               if decide (t = target) then texture else bound
           | _ => bound
           end) before cs.

(** The program in use after a sequence of GL calls. *)
Definition program_in_use (before : option ShaderProgram)
    (cs : list gl_call) : option ShaderProgram :=
  foldl (fun used c =>
           match c with
           | program_use p => Some p
           | _ => used
           end) before cs.

(** An operand of [==]: a group object, or an object of a class that is
    unrelated to the group classes, with whatever [__eq__] it has (given
    the address of the object it is compared with). *)
Inductive pyobject : Type :=
| GroupObject (address : positive) (g : Group)
| ForeignObject (address : positive) (eq_method : positive -> eq_answer).

Definition address_of (o : pyobject) : positive :=
  match o with
  | GroupObject a _ => a
  | ForeignObject a _ => a
  end.

(** [type(x).__eq__(x, y)] *)
Definition dunder_eq (x y : pyobject) : eq_answer :=
  match x with
  | GroupObject _ (Textured t) => TexturedMaterialGroup.__eq__ t y
  | GroupObject _ (Untextured m) => MaterialGroup.__eq__ m y
  | ForeignObject _ eq_method => eq_method (address_of y)
  end.

(** [x == y]: the method of the left operand, then the reflected one of
    the right operand, then identity.  (The right operand goes first only
    when its class derives from the left one's; no such class is among
    the operands.) *)
Definition py_eq (x y : pyobject) : bool :=
  match dunder_eq x y with
  | Answer b => b
  | NotImplemented =>
      match dunder_eq y x with
      | Answer b => b
      | NotImplemented => bool_decide (address_of x = address_of y)
      end
  end.

End Objects.

(* ===================================================================== *)
(** ** Model *)
(* ===================================================================== *)

(** One call [source.migrate(vertex_list, mode, group, batch)]. *)
Record migrate_call : Type := {
  source : positive;
  vertex_list : positive;
  mode : Z;
  group : positive;
  target : positive
}.

(** The state of [pyglet.graphics] that the batch property touches: the
    batches allocated so far and the [migrate] calls received. *)
Record graphics : Type := {
  batches : gset positive;
  migrations : list migrate_call
}.

(** [graphics.Batch()] *)
Definition Batch_new (g : graphics) : positive * graphics :=
  let b := fresh (batches g) in
  (b, {| batches := {[b]} ∪ batches g; migrations := migrations g |}).

(** [receiver.migrate(vlist, mode, group, batch)]; [None] has no such
    attribute. *)
Definition migrate (receiver : pyref) (vlist : positive) (mode : Z)
    (group batch : positive) (g : graphics) : option graphics :=
  match receiver with
  | Ref b =>
      Some {| batches := batches g;
              migrations := migrations g ++
                [{| source := b; vertex_list := vlist; mode := mode;
                    group := group; target := batch |}] |}
  | RefNone => None
  end.

Module Model.
Section Defs.
Context `{MathLib}.

(** A model refers to its vertex lists, groups and batch by address. *)
Record t : Type := {
  vertex_lists : list positive;
  groups : list positive;
  _batch : pyref;
  _rotation : pyval;
  _translation : pyval
}.

Definition __init__ (vertex_lists groups : list positive) (batch : pyref)
  : t :=
  {| vertex_lists := vertex_lists;
     groups := groups;
     _batch := batch;
     _rotation := PyTuple [PyInt 0; PyInt 0; PyInt 0];
     _translation := PyTuple [PyInt 0; PyInt 0; PyInt 0] |}.

Definition batch (self : t) : pyref := _batch self.

Definition set_batch (b : pyref) (self : t) : t :=
  {| vertex_lists := vertex_lists self; groups := groups self;
     _batch := b; _rotation := _rotation self;
     _translation := _translation self |}.

(** Lines 192-193. *)
Fixpoint migrate_loop (receiver : pyref)
    (pairs : list (positive * positive)) (batch : positive)
    (g : graphics) : option graphics :=
  match pairs with
  | [] => Some g
  | (group, vlist) :: rest =>
      g1 ← migrate receiver vlist GL_TRIANGLES group batch g;
      migrate_loop receiver rest batch g1
  end.

(** One [migrate] call per pair of [zip(self.groups, self.vertex_lists)],
      in order, each with [GL_TRIANGLES] and the group of the pair. *)
Definition migrations_of (self : t) (old new : positive)
    : list migrate_call :=
    (fun pair : positive * positive =>
       {| source := old; vertex_list := pair.2; mode := GL_TRIANGLES;
          group := pair.1; target := new |})
    <$> zip (groups self) (vertex_lists self).

(** How a setter is left. *)
Inductive setter_exit : Type :=
  | Completed
  | AttributeError.

(** The setter of [batch]. *)
Definition batch_setter (self : t) (batch : pyref) (g : graphics)
  : t * graphics * setter_exit :=
  if decide (_batch self = batch) then (self, g, Completed)
  else
    let '(batch1, g1) :=
      match batch with
      | RefNone => Batch_new g
      | Ref b => (b, g)
      end in
    match migrate_loop (_batch self)
                       (zip (groups self) (vertex_lists self)) batch1 g1
    with
    | Some g2 => (set_batch (Ref batch1) self, g2, Completed)
    | None => (self, g1, AttributeError)
    end.

Definition rotation (self : t) : pyval := _rotation self.

(** [group.rotation = values] on the object at an address. *)
Definition assign_rotation (values : pyval) (store : gmap positive Group)
    (group : positive) : gmap positive Group :=
  alter (map_base (BaseMaterialGroup.set_rotation values)) group store.

(** The setter of [rotation]. *)
Definition rotation_setter (self : t) (values : pyval)
    (store : gmap positive Group) : t * gmap positive Group :=
  ({| vertex_lists := vertex_lists self; groups := groups self;
      _batch := _batch self; _rotation := values;
      _translation := _translation self |},
   foldl (assign_rotation values) store (groups self)).

Definition translation (self : t) : pyval := _translation self.

Definition assign_translation (values : pyval)
    (store : gmap positive Group) (group : positive)
  : gmap positive Group :=
  alter (map_base (BaseMaterialGroup.set_translation values)) group store.

(** The setter of [translation]. *)
Definition translation_setter (self : t) (values : pyval)
    (store : gmap positive Group) : t * gmap positive Group :=
  ({| vertex_lists := vertex_lists self; groups := groups self;
      _batch := _batch self; _rotation := _rotation self;
      _translation := values |},
   foldl (assign_translation values) store (groups self)).

(** One call [receiver.draw_subset(vertex_lists)]. *)
Record draw_subset_call : Type := {
  receiver : positive;
  subset : list positive
}.

(** [draw]: line 223; [None] has no [draw_subset]. *)
Definition draw (self : t) : option draw_subset_call :=
  match _batch self with
  | Ref b => Some {| receiver := b; subset := vertex_lists self |}
  | RefNone => None
  end.

End Defs.
End Model.

(** [hash(group)], dispatched on the class of the object. *)
Definition group_hash `{MathLib} `{!Builtins} (g : Group) : Z :=
  match g with
  | Textured t => TexturedMaterialGroup.__hash__ t
  | Untextured m => MaterialGroup.__hash__ m
  end.

(* ===================================================================== *)
(** ** Concrete instances, for running the definitions *)
(* ===================================================================== *)

(** Numbers and matrices as uninterpreted terms: every operation of the
    interface is recorded as it is applied. *)
Inductive fterm : Type :=
| FInt (n : Z)
| FRadians (x : fterm).

Inductive mterm : Type :=
| MNew
| MTranslation (x y z : fterm)
| MRotate (m : mterm) (angle : fterm) (a : axis)
| MMatmul (a b : mterm).

Definition term_math : MathLib :=
  {| float := fterm; of_int := FInt; radians := FRadians;
     Mat4 := mterm; Mat4_new := MNew; from_translation := MTranslation;
     rotate := MRotate; matmul := MMatmul |}.

(** Builtins in the manner of CPython: [id] is the address of the object,
    an integer hashes to itself, a tuple to a value computed from its
    length and the hashes of its items. *)
Section TermBuiltins.
Local Existing Instance term_math.

Fixpoint term_hash (v : pyval) : Z :=
  match v with
  | PyNone => 0
  | PyInt n => n
  | PyFloat _ => 0
  | PyTuple items =>
      foldr (fun item acc => 31 * acc + term_hash item + 1)
            (Z.of_nat (length items)) items
  end.

Definition term_builtins : Builtins :=
  {| id := fun r => match r with RefNone => 0 | Ref a => Z.pos a end;
     hash := term_hash |}.

End TermBuiltins.

(** Decoders that build a number, and a file system with one file. *)
Definition failing (n : string) (priority : Z) : ModelDecoder nat unit :=
  {| decoder_name := n;
     decode := fun data pos _ _ =>
       (Failed {| message := n; exception_priority := priority |},
        (pos + 2)%N) |}.

Definition succeeding (n : string) (m : nat) : ModelDecoder nat unit :=
  {| decoder_name := n;
     decode := fun data pos _ _ => (Decoded m, N.of_nat (length data)) |}.

(** Succeeds only when it reads the stream from its start. *)
Definition from_start (n : string) (m : nat) : ModelDecoder nat unit :=
  {| decoder_name := n;
     decode := fun data pos _ _ =>
       if (pos =? 0)%N then (Decoded m, N.of_nat (length data))
       else (Failed {| message := n; exception_priority := 0 |}, pos) |}.

Definition crashing (n : string) : ModelDecoder nat unit :=
  {| decoder_name := n;
     decode := fun data pos _ _ => (Crashed "ValueError", pos) |}.

Definition one_file (filename : string)
  : option (list Byte.byte * bool) :=
  if String.eqb filename "teapot.obj"
  then Some ([Byte.x76; Byte.x20; Byte.x31; Byte.x0a], true)
  else None.

(** The same bytes behind a FIFO: the opened stream has [seek] and cannot
    seek. *)
Definition one_fifo (filename : string)
  : option (list Byte.byte * bool) :=
  if String.eqb filename "teapot.obj"
  then Some ([Byte.x76; Byte.x20; Byte.x31; Byte.x0a], false)
  else None.

(** A model of two parts in batch 1, and the groups it refers to. *)
Section TermModel.
Local Existing Instance term_math.

Definition plain : Material :=
  {| name := "plain"; diffuse := []; ambient := []; specular := [];
     emission := []; shininess := FInt 0; texture_name := None |}.

Definition shiny : Material :=
  {| name := "shiny"; diffuse := [(FInt 1 : float)]; ambient := [];
     specular := [(FInt 1 : float)]; emission := [];
     shininess := FInt 96; texture_name := Some "wood.png" |}.

Definition two_groups : gmap positive Group :=
  {[ 10%positive :=
       Textured (TexturedMaterialGroup.__init__ plain
                   {| texture_id := 3; texture_target := 3553 |});
     11%positive := Untextured (MaterialGroup.__init__ plain) ]}.

Definition two_parts : Model.t :=
  Model.__init__ [20%positive; 21%positive] [10%positive; 11%positive]
                 (Ref 1).

Definition one_batch : graphics :=
  {| batches := {[ 1%positive ]}; migrations := [] |}.

End TermModel.

Definition registry (ds : list (ModelDecoder nat unit)) (filename : string)
  : list (ModelDecoder nat unit) := ds.

(* ===================================================================== *)
(** * Properties of [load] *)
(* ===================================================================== *)

Section LoadFacts.
Context {Model Batch : Type}.
Variables (filename : string) (batch : option Batch).

Abbreviation decoder := (ModelDecoder Model Batch).
Abbreviation loop := (@try_decoders Model Batch filename batch).
Abbreviation outcome := (@outcome_at Model Batch filename batch).
Abbreviation call := (@call_decode Model Batch filename batch).
Abbreviation rewind := (@rewound Model Batch filename batch).

Lemma rewound_position d f : position (rewind d f) = 0%N.
Proof. reflexivity. Qed.

Lemma rewound_content d f : content (rewind d f) = content f.
Proof. reflexivity. Qed.

Lemma rewound_close_calls d f :
  close_calls (rewind d f) = close_calls f.
Proof. reflexivity. Qed.

Lemma rewound_seekable d f : seekable (rewind d f) = seekable f.
Proof. reflexivity. Qed.

Lemma call_decode_close_calls d f :
  close_calls (call d f).2 = close_calls f.
Proof. reflexivity. Qed.

Lemma call_decode_outcome d f :
  (call d f).1 = outcome f 0%nat d.
Proof. reflexivity. Qed.

(** One iteration of the loop, by the outcome of the decode call and by
    whether the stream can be rewound. *)
Lemma try_decoders_cons d ds acc f :
  loop (d :: ds) acc f =
  let here := EvDecode (decoder_name d) (position f) in
  match outcome f 0%nat d with
  | Decoded m =>
      {| exit := LoopReturn m; stream := (call d f).2;
         trace := [here] |}
  | Crashed x =>
      {| exit := LoopRaise x; stream := (call d f).2;
         trace := [here] |}
  | Failed e =>
      if seekable f then
        let k := loop ds (retain acc e) (rewind d f) in
        {| exit := exit k; stream := stream k;
           trace := here :: EvSeek 0%N :: trace k |}
      else
        {| exit := LoopSeekRaise; stream := (call d f).2;
           trace := [here; EvSeek 0%N] |}
  end.
Proof.
  unfold outcome_at, rewound, call_decode. simpl.
  destruct (decode d (content f) (position f) filename batch)
    as [[m|e|x] p]; simpl; try reflexivity.
  unfold seek. simpl. destruct (seekable f); reflexivity.
Qed.

(** Once the stream has been rewound, the index of a candidate no longer
    matters for what it sees. *)
Lemma outcome_after_rewind (f g : PyFile) i j d :
  content g = content f -> position g = 0%N ->
  outcome g j d = outcome f (S i) d.
Proof.
  intros Hc Hp. unfold outcome_at. rewrite Hc.
  destruct j; simpl; rewrite ?Hp; reflexivity.
Qed.

Lemma imap_outcome_rewound d f (ds : list decoder) :
  imap (outcome (rewind d f)) ds = imap (outcome f ∘ S) ds.
Proof.
  apply imap_ext. intros i x _. simpl.
  apply outcome_after_rewind; reflexivity.
Qed.

(** *** The retained failure *)

Lemma retain_None e : retain None e = Some e.
Proof. reflexivity. Qed.

Lemma retain_Some a e :
  retain (Some a) e =
  Some (if exception_priority a <? exception_priority e then e else a).
Proof.
  unfold retain. simpl.
  destruct (exception_priority a <? exception_priority e); reflexivity.
Qed.

Lemma retain_not_None acc e : retain acc e <> None.
Proof.
  destruct acc as [a|]; [rewrite retain_Some | rewrite retain_None];
    discriminate.
Qed.

Lemma first_highest_snoc_keep es i e x :
  first_highest es i e ->
  exception_priority x <= exception_priority e ->
  first_highest (es ++ [x]) i e.
Proof.
  intros (Hi & Hmax & Hfirst) Hx. split; [|split].
  - apply lookup_app_l_Some. exact Hi.
  - intros j e' Hj. apply lookup_app_Some in Hj as [Hj|[_ Hj]].
    + eauto.
    + apply list_lookup_singleton_Some in Hj as [_ <-]. exact Hx.
  - intros j e' Hlt Hj. apply lookup_app_Some in Hj as [Hj|[Hge _]].
    + eauto.
    + apply lookup_lt_Some in Hi. lia.
Qed.

Lemma first_highest_snoc_replace es i e x :
  first_highest es i e ->
  exception_priority e < exception_priority x ->
  first_highest (es ++ [x]) (length es) x.
Proof.
  intros (Hi & Hmax & Hfirst) Hx. split; [|split].
  - rewrite lookup_app_r by lia. rewrite Nat.sub_diag. reflexivity.
  - intros j e' Hj. apply lookup_app_Some in Hj as [Hj|[_ Hj]].
    + specialize (Hmax _ _ Hj). lia.
    + apply list_lookup_singleton_Some in Hj as [_ <-]. lia.
  - intros j e' Hlt Hj. rewrite lookup_app_l in Hj by exact Hlt.
    specialize (Hmax _ _ Hj). lia.
Qed.

(** Folding [retain] over the failures keeps the first one of highest
    priority. *)
Lemma foldl_retain_first_highest a es :
  exists i e, foldl retain (Some a) es = Some e /\
              first_highest (a :: es) i e.
Proof.
  induction es as [|x es IH] using rev_ind.
  - exists 0%nat, a. split; [reflexivity|]. split; [reflexivity|].
    split.
    + intros [|j] e' Hj; simpl in Hj; [|discriminate].
      injection Hj as <-. lia.
    + intros j e' Hlt. lia.
  - destruct IH as (i & e & Hfold & Hfh).
    rewrite foldl_app. simpl. rewrite Hfold, retain_Some.
    destruct (Z.ltb_spec (exception_priority e) (exception_priority x)).
    + exists (length (a :: es)), x. split; [reflexivity|].
      apply (first_highest_snoc_replace (a :: es) i e x); assumption.
    + exists i, e. split; [reflexivity|].
      apply (first_highest_snoc_keep (a :: es) i e x); assumption.
Qed.

(** *** The loop when every candidate fails *)

Lemma try_decoders_all_fail (ds : list decoder) :
  forall es acc f,
    seekable f = true ->
    imap (outcome f) ds = Failed <$> es ->
    exit (loop ds acc f) = LoopDone (foldl retain acc es).
Proof.
  induction ds as [|d ds IH]; intros es acc f Hs Hall.
  - destruct es; [reflexivity | discriminate].
  - destruct es as [|e es]; [discriminate|].
    rewrite imap_cons in Hall. simpl in Hall.
    injection Hall as Hd Hrest.
    rewrite try_decoders_cons, Hd, Hs. simpl.
    apply IH; [exact Hs|]. rewrite imap_outcome_rewound. exact Hrest.
Qed.

(** On a stream that cannot seek, the loop ends at the rewind that
    follows the first failure. *)
Lemma try_decoders_seek_raises d (ds : list decoder) e acc f :
  seekable f = false ->
  outcome f 0%nat d = Failed e ->
  loop (d :: ds) acc f =
  {| exit := LoopSeekRaise; stream := (call d f).2;
     trace := [EvDecode (decoder_name d) (position f); EvSeek 0%N] |}.
Proof.
  intros Hs Hd. rewrite try_decoders_cons, Hd, Hs. reflexivity.
Qed.

(** The loop ends with nothing retained only if it never ran. *)
Lemma try_decoders_done_None (ds : list decoder) :
  forall acc f,
    exit (loop ds acc f) = LoopDone None -> ds = [] /\ acc = None.
Proof.
  induction ds as [|d ds IH]; intros acc f Hexit.
  - simpl in Hexit. injection Hexit as ->. split; reflexivity.
  - rewrite try_decoders_cons in Hexit.
    destruct (outcome f 0%nat d) as [m|e|x]; simpl in Hexit;
      try discriminate.
    destruct (seekable f); simpl in Hexit; [|discriminate].
    apply IH in Hexit as [_ Hacc]. exfalso.
    exact (retain_not_None _ _ Hacc).
Qed.

(** *** What the loop does to the stream *)

Lemma try_decoders_close_calls (ds : list decoder) :
  forall acc f, close_calls (stream (loop ds acc f)) = close_calls f.
Proof.
  induction ds as [|d ds IH]; intros acc f; [reflexivity|].
  rewrite try_decoders_cons.
  destruct (outcome f 0%nat d) as [m|e|x]; simpl; try reflexivity.
  destruct (seekable f); simpl; [|reflexivity].
  rewrite IH. reflexivity.
Qed.

Lemma try_decoders_never_closes (ds : list decoder) :
  forall acc f, EvClose ∉ trace (loop ds acc f).
Proof.
  induction ds as [|d ds IH]; intros acc f.
  - simpl. apply not_elem_of_nil.
  - rewrite try_decoders_cons.
    destruct (outcome f 0%nat d) as [m|e|x]; simpl.
    + intros Hin. apply list_elem_of_singleton in Hin. discriminate.
    + destruct (seekable f); simpl; intros Hin.
      * apply elem_of_cons in Hin as [Hin|Hin]; [discriminate|].
        apply elem_of_cons in Hin as [Hin|Hin]; [discriminate|].
        exact (IH _ _ Hin).
      * apply elem_of_cons in Hin as [Hin|Hin]; [discriminate|].
        apply list_elem_of_singleton in Hin. discriminate.
    + intros Hin. apply list_elem_of_singleton in Hin. discriminate.
Qed.

(** The first event of the loop, if any, is a decode call at the offset
    of the stream. *)
Lemma try_decoders_first_event (ds : list decoder) acc f ev :
  trace (loop ds acc f) !! 0%nat = Some ev ->
  exists n, ev = EvDecode n (position f).
Proof.
  destruct ds as [|d ds]; [simpl; discriminate|].
  rewrite try_decoders_cons.
  destruct (outcome f 0%nat d) as [m|e|x]; simpl;
    [| destruct (seekable f) |]; simpl; intros [= <-]; eauto.
Qed.

(** A decode call that is not the first event of the trace comes right
    after a [seek(0)] and runs at offset 0. *)
Lemma try_decoders_seek_before_decode (ds : list decoder) :
  forall acc f i n p,
    trace (loop ds acc f) !! S i = Some (EvDecode n p) ->
    trace (loop ds acc f) !! i = Some (EvSeek 0%N) /\ p = 0%N.
Proof.
  induction ds as [|d ds IH]; intros acc f i n p.
  - simpl. discriminate.
  - rewrite try_decoders_cons.
    destruct (outcome f 0%nat d) as [m|e|x]; simpl; try discriminate.
    destruct (seekable f); simpl.
    + destruct i as [|[|i]]; simpl.
      * discriminate.
      * intros Hi. split; [reflexivity|].
        apply try_decoders_first_event in Hi as [n' [= _ ->]].
        reflexivity.
      * intros Hi. apply IH in Hi. exact Hi.
    + destruct i as [|[|i]]; simpl; discriminate.
Qed.

Lemma imap_attempt_of_rewound d f (ds : list decoder) :
  imap (attempt_of (rewind d f)) ds = imap (attempt_of f ∘ S) ds.
Proof.
  apply imap_ext. intros [|i] x _; reflexivity.
Qed.

(** Every attempt of the loop is made at the position foreseen for its
    index, by a candidate of the list, in order. *)
Lemma try_decoders_attempts_prefix (ds : list decoder) :
  forall acc f,
    attempts (trace (loop ds acc f)) `prefix_of` imap (attempt_of f) ds.
Proof.
  induction ds as [|d ds IH]; intros acc f.
  - simpl. reflexivity.
  - rewrite try_decoders_cons, imap_cons.
    destruct (outcome f 0%nat d) as [m|e|x]; simpl.
    + apply prefix_cons, prefix_nil.
    + destruct (seekable f); simpl.
      * apply prefix_cons. rewrite <- (imap_attempt_of_rewound d f).
        apply IH.
      * apply prefix_cons, prefix_nil.
    + apply prefix_cons, prefix_nil.
Qed.

(** *** The loop up to a candidate whose predecessors all fail *)

(** The candidate is reached: the trace begins with the failed attempts
    of its predecessors, each followed by the rewind, and goes on with
    its decode call. *)
Lemma try_decoders_reaches (pre : list decoder) d post :
  forall es acc f,
    imap (outcome f) pre = Failed <$> es ->
    (pre <> [] -> seekable f = true) ->
    exists rest,
      trace (loop (pre ++ d :: post) acc f) =
      concat (failed_attempt <$> imap (attempt_of f) pre) ++
      EvDecode (decoder_name d) (attempt_position f (length pre)) :: rest.
Proof.
  induction pre as [|d0 pre IH]; intros es acc f Hpre Hs.
  - simpl app. rewrite try_decoders_cons. simpl.
    destruct (outcome f 0%nat d) as [m|e|x]; [| destruct (seekable f) |];
      simpl; eauto.
  - destruct es as [|e es]; [discriminate|].
    rewrite imap_cons in Hpre. simpl in Hpre.
    injection Hpre as Hd0 Hrest.
    simpl app. rewrite try_decoders_cons, Hd0, Hs by discriminate.
    simpl.
    destruct (IH es (retain acc e) (rewind d0 f)) as [rest Hrest'].
    + rewrite imap_outcome_rewound. exact Hrest.
    + intros _. apply Hs. discriminate.
    + exists rest. rewrite Hrest', (imap_attempt_of_rewound d0 f).
      destruct (length pre); reflexivity.
Qed.

Lemma try_decoders_first_success (pre : list decoder) d post m :
  forall es acc f,
    imap (outcome f) pre = Failed <$> es ->
    (pre <> [] -> seekable f = true) ->
    outcome f (length pre) d = Decoded m ->
    exit (loop (pre ++ d :: post) acc f) = LoopReturn m /\
    attempts (trace (loop (pre ++ d :: post) acc f)) =
      imap (attempt_of f) (pre ++ [d]).
Proof.
  induction pre as [|d0 pre IH]; intros es acc f Hpre Hs Hd.
  - simpl app. rewrite try_decoders_cons. simpl in Hd. rewrite Hd.
    split; reflexivity.
  - destruct es as [|e es]; [discriminate|].
    rewrite imap_cons in Hpre. simpl in Hpre.
    injection Hpre as Hd0 Hrest.
    simpl app. rewrite try_decoders_cons, Hd0, Hs by discriminate.
    simpl.
    destruct (IH es (retain acc e) (rewind d0 f)) as [Hexit Hatt].
    + rewrite imap_outcome_rewound. exact Hrest.
    + intros _. apply Hs. discriminate.
    + rewrite <- Hd. apply outcome_after_rewind; reflexivity.
    + split; [exact Hexit|].
      rewrite Hatt, (imap_attempt_of_rewound d0 f). reflexivity.
Qed.

(** *** The whole call *)

Variables (fs : string -> option (list Byte.byte * bool))
          (get_decoders : string -> list decoder).

Lemma load_unfold file dec f orig :
  acquire fs filename file = Some (f, orig) ->
  load fs get_decoders filename file dec batch =
  let r := load_body filename batch get_decoders dec f in
  {| result := r.1.1; working := Some r.1.2; replaced := orig;
     events := r.2 |}.
Proof.
  intros Hacq. unfold load. rewrite Hacq.
  destruct (load_body filename batch get_decoders dec f) as [[res f2] tr].
  reflexivity.
Qed.

(** A stream that [load] opened or copied itself starts at offset 0. *)
Lemma acquire_own_stream_position file f orig :
  acquire fs filename file = Some (f, orig) ->
  file = None \/ is_Some orig -> position f = 0%N.
Proof.
  unfold acquire, open. intros Hacq Hown.
  destruct file as [g|].
  - destruct (has_seek g); injection Hacq as <- <-; [|reflexivity].
    destruct Hown as [?|[? ?]]; discriminate.
  - destruct (fs filename) as [[data can_seek]|]; [|discriminate].
    simpl in Hacq. injection Hacq as <- <-. reflexivity.
Qed.

Lemma attempts_snoc_close (tr : list event) :
  attempts (tr ++ [EvClose]) = attempts tr.
Proof. unfold attempts. rewrite omap_app. simpl. apply app_nil_r. Qed.

End LoadFacts.

(** X21: on a stream that can be rewound, when the candidate list is not
    empty and every candidate raises a decode failure, [load] raises the
    first failure of highest priority: no failure has a higher priority,
    and every failure met before it has a strictly lower one. *)
Theorem load_raises_first_highest_failure
    {Model Batch : Type} fs
    (get_decoders : string -> list (ModelDecoder Model Batch))
    filename file batch f orig es :
  acquire fs filename file = Some (f, orig) ->
  seekable f = true ->
  get_decoders filename <> [] ->
  imap (outcome_at filename batch f) (get_decoders filename)
    = Failed <$> es ->
  exists i e,
    result (load fs get_decoders filename file None batch) = RaisedCaptured e
    /\ first_highest es i e.
Proof.
  intros Hacq Hs Hne Hall.
  rewrite (load_unfold _ _ _ _ _ _ _ _ Hacq). simpl.
  rewrite (try_decoders_all_fail _ _ _ es _ _ Hs Hall).
  destruct es as [|a es].
  - destruct (get_decoders filename); [congruence | discriminate].
  - change (foldl retain None (a :: es)) with (foldl retain (Some a) es).
    destruct (foldl_retain_first_highest a es) as (i & e & Hfold & Hfh).
    exists i, e. rewrite Hfold. split; [reflexivity | exact Hfh].
Qed.

Lemma load_raises_first_highest_failure_witness :
  exists i e,
    result (load one_file
              (registry [failing "a" 5; failing "b" 10; failing "c" 10])
              "teapot.obj" None None None) = RaisedCaptured e
    /\ first_highest
         [ {| message := "a"; exception_priority := 5 |};
           {| message := "b"; exception_priority := 10 |};
           {| message := "c"; exception_priority := 10 |} ] i e.
Proof.
  eapply load_raises_first_highest_failure;
    [reflexivity | reflexivity | discriminate | reflexivity].
Defined.

(** C1: on a stream that has [seek] and cannot seek, a non-empty candidate
    list in which every candidate raises a decode failure does not make
    [load] raise a captured failure: the [seek(0)] of line 135 raises
    after the first failure, [load] ends with that exception, only the
    first candidate was tried, and the stream is closed. *)
Theorem load_seek_failure_replaces_ranked_failure
    {Model Batch : Type} fs
    (get_decoders : string -> list (ModelDecoder Model Batch))
    filename file batch f orig es :
  acquire fs filename file = Some (f, orig) ->
  seekable f = false ->
  get_decoders filename <> [] ->
  imap (outcome_at filename batch f) (get_decoders filename)
    = Failed <$> es ->
  let o := load fs get_decoders filename file None batch in
  result o = Propagated UnsupportedOperation /\
  (forall e, result o <> RaisedCaptured e) /\
  attempts (events o) =
    take 1 (imap (attempt_of f) (get_decoders filename)) /\
  last (events o) = Some EvClose.
Proof.
  intros Hacq Hs Hne Hall o. subst o.
  rewrite (load_unfold _ _ _ _ _ _ _ _ Hacq). simpl.
  destruct (get_decoders filename) as [|d ds]; [contradiction|].
  destruct es as [|e es]; [discriminate|].
  rewrite imap_cons in Hall. simpl in Hall. injection Hall as Hd _.
  rewrite (try_decoders_seek_raises filename batch d ds e None f Hs Hd).
  simpl. repeat split. intros e'. discriminate.
Qed.

Lemma load_seek_failure_replaces_ranked_failure_witness :
  let pipe := {| has_seek := true; seekable := false;
                 content := [Byte.x76; Byte.x20; Byte.x31; Byte.x0a];
                 position := 0%N; close_calls := 0 |} in
  let o := load one_file (registry [failing "a" 5; failing "b" 10])
             "teapot.obj" (Some pipe) None None in
  result o = Propagated UnsupportedOperation /\
  (forall e, result o <> RaisedCaptured e) /\
  attempts (events o) = [("a", 0%N)] /\
  last (events o) = Some EvClose.
Proof.
  intros pipe.
  exact (load_seek_failure_replaces_ranked_failure one_file
           (registry [failing "a" 5; failing "b" 10]) "teapot.obj"
           (Some pipe) None pipe None
           [ {| message := "a"; exception_priority := 5 |};
             {| message := "b"; exception_priority := 10 |} ]
           eq_refl eq_refl ltac:(discriminate) eq_refl).
Defined.

(** X22: when a candidate returns a Model after all candidates before it
    raised decode failures, on a stream that can be rewound if there are
    such candidates, [load] returns that Model, and the decode calls it
    made are those of the candidates up to and including that one, in
    order: no later candidate is invoked. *)
Theorem load_returns_first_success
    {Model Batch : Type} fs
    (get_decoders : string -> list (ModelDecoder Model Batch))
    filename file batch f orig pre d post es m :
  acquire fs filename file = Some (f, orig) ->
  (pre <> [] -> seekable f = true) ->
  get_decoders filename = pre ++ d :: post ->
  imap (outcome_at filename batch f) pre = Failed <$> es ->
  outcome_at filename batch f (length pre) d = Decoded m ->
  let o := load fs get_decoders filename file None batch in
  result o = Returned m /\
  attempts (events o) = imap (attempt_of f) (pre ++ [d]) /\
  length (attempts (events o)) = S (length pre).
Proof.
  intros Hacq Hs Hds Hpre Hd o. subst o.
  rewrite (load_unfold _ _ _ _ _ _ _ _ Hacq). simpl. rewrite Hds.
  destruct (try_decoders_first_success filename batch pre d post m
              es None f Hpre Hs Hd) as [Hexit Hatt].
  rewrite Hexit, attempts_snoc_close, Hatt.
  split; [reflexivity|]. split; [reflexivity|].
  rewrite length_imap, length_app. simpl. lia.
Qed.

Lemma load_returns_first_success_witness :
  let o := load one_file
             (registry [failing "D_fail" 1; succeeding "D_succeed" 7;
                        failing "D_fail2" 2])
             "teapot.obj" None None None in
  result o = Returned 7%nat /\
  attempts (events o) = [("D_fail", 0%N); ("D_succeed", 0%N)] /\
  length (attempts (events o)) = 2%nat.
Proof.
  exact (load_returns_first_success one_file
           (registry [failing "D_fail" 1; succeeding "D_succeed" 7;
                      failing "D_fail2" 2])
           "teapot.obj" None None _ None
           [failing "D_fail" 1] (succeeding "D_succeed" 7)
           [failing "D_fail2" 2]
           [ {| message := "D_fail"; exception_priority := 1 |} ] 7%nat
           eq_refl (fun _ => eq_refl) eq_refl eq_refl eq_refl).
Defined.

(** C2: on a stream that has [seek] and cannot seek, a candidate that
    would return a Model is never invoked when the first candidate raises
    a decode failure: the [seek(0)] of line 135 raises, [load] ends with
    that exception instead of returning the Model, and the only decode
    call made is the first candidate's. *)
Theorem load_seek_failure_skips_later_success
    {Model Batch : Type} fs
    (get_decoders : string -> list (ModelDecoder Model Batch))
    filename file batch f orig d0 pre d post e m :
  acquire fs filename file = Some (f, orig) ->
  seekable f = false ->
  get_decoders filename = d0 :: pre ++ d :: post ->
  outcome_at filename batch f 0 d0 = Failed e ->
  outcome_at filename batch f (S (length pre)) d = Decoded m ->
  let o := load fs get_decoders filename file None batch in
  result o = Propagated UnsupportedOperation /\
  result o <> Returned m /\
  attempts (events o) = [attempt_of f 0 d0] /\
  last (events o) = Some EvClose.
Proof.
  intros Hacq Hs Hds Hd0 _ o. subst o.
  rewrite (load_unfold _ _ _ _ _ _ _ _ Hacq). simpl. rewrite Hds.
  rewrite (try_decoders_seek_raises filename batch d0 _ e None f Hs Hd0).
  simpl. repeat split. discriminate.
Qed.

Lemma load_seek_failure_skips_later_success_witness :
  let o := load one_fifo
             (registry [failing "D_fail" 1; succeeding "D_succeed" 7;
                        failing "D_fail2" 2])
             "teapot.obj" None None None in
  result o = Propagated UnsupportedOperation /\
  result o <> Returned 7%nat /\
  attempts (events o) = [("D_fail", 0%N)] /\
  last (events o) = Some EvClose.
Proof.
  exact (load_seek_failure_skips_later_success one_fifo
           (registry [failing "D_fail" 1; succeeding "D_succeed" 7;
                      failing "D_fail2" 2])
           "teapot.obj" None None _ None
           (failing "D_fail" 1) [] (succeeding "D_succeed" 7)
           [failing "D_fail2" 2]
           {| message := "D_fail"; exception_priority := 1 |} 7%nat
           eq_refl eq_refl eq_refl eq_refl eq_refl).
Defined.

(** C3: whenever [load] obtains a stream, it calls [close()] on that stream
    exactly once, as its last action, whatever the decoders do and whether
    or not a decoder was passed; when opening the file fails there is no
    stream and nothing else happens. *)
Theorem load_closes_stream_once
    {Model Batch : Type} fs
    (get_decoders : string -> list (ModelDecoder Model Batch))
    filename file decoder batch :
  let o := load fs get_decoders filename file decoder batch in
  match acquire fs filename file with
  | Some (f, _) =>
      exists f' tr,
        working o = Some f' /\
        close_calls f' = S (close_calls f) /\
        events o = tr ++ [EvClose] /\
        EvClose ∉ tr
  | None => result o = OpenFailed /\ working o = None /\ events o = []
  end.
Proof.
  intros o. subst o.
  destruct (acquire fs filename file) as [[f orig]|] eqn:Hacq.
  - rewrite (load_unfold _ _ _ _ _ _ _ _ Hacq).
    destruct decoder as [d|]; simpl.
    + eexists _, [EvDecode (decoder_name d) (position f)].
      split; [reflexivity|]. split; [reflexivity|].
      split; [reflexivity|].
      intros Hin. apply list_elem_of_singleton in Hin. discriminate.
    + eexists _, _. split; [reflexivity|]. simpl.
      rewrite try_decoders_close_calls.
      split; [reflexivity|]. split; [reflexivity|].
      apply try_decoders_never_closes.
  - unfold load. rewrite Hacq. repeat split.
Qed.

(** C4: in [load] without an explicit decoder, a candidate all of whose
    predecessors raised decode failures is invoked, on a stream that can
    be rewound if it has predecessors: the trace begins with the decode
    call of each predecessor followed by [seek(0)], and goes on with the
    decode call of the candidate, at the offset the stream was received
    at when it is the first candidate and at offset 0 otherwise.  Every
    decode call that is not the first action on the stream comes
    immediately after a [seek(0)] and runs at offset 0. *)
Theorem load_rewinds_between_attempts
    {Model Batch : Type} fs
    (get_decoders : string -> list (ModelDecoder Model Batch))
    filename file batch f orig pre d post es :
  acquire fs filename file = Some (f, orig) ->
  get_decoders filename = pre ++ d :: post ->
  imap (outcome_at filename batch f) pre = Failed <$> es ->
  (pre <> [] -> seekable f = true) ->
  let o := load fs get_decoders filename file None batch in
  (exists rest,
      events o =
        concat (failed_attempt <$> imap (attempt_of f) pre) ++
        EvDecode (decoder_name d) (attempt_position f (length pre))
        :: rest) /\
  (forall i n p,
      events o !! S i = Some (EvDecode n p) ->
      events o !! i = Some (EvSeek 0%N) /\ p = 0%N).
Proof.
  intros Hacq Hds Hpre Hs o. subst o.
  rewrite (load_unfold _ _ _ _ _ _ _ _ Hacq). simpl.
  split.
  - rewrite Hds.
    destruct (try_decoders_reaches filename batch pre d post es None f
                Hpre Hs) as [rest Hrest].
    exists (rest ++ [EvClose]). rewrite Hrest, <- app_assoc.
    reflexivity.
  - intros i n p Hi.
    apply lookup_app_Some in Hi as [Hi|[_ Hi]].
    + apply try_decoders_seek_before_decode in Hi as [Hseek ->].
      split; [|reflexivity]. apply lookup_app_l_Some. exact Hseek.
    + apply list_lookup_singleton_Some in Hi as [_ Hi]. discriminate.
Qed.

Lemma load_rewinds_between_attempts_witness :
  let file := {| has_seek := true; seekable := true;
                 content := [Byte.x76; Byte.x20; Byte.x31; Byte.x0a];
                 position := 2%N; close_calls := 0 |} in
  let o := load one_file
             (registry [failing "a" 1; failing "b" 2; from_start "c" 3])
             "teapot.obj" (Some file) None None in
  (exists rest,
      events o =
        [EvDecode "a" 2%N; EvSeek 0%N; EvDecode "b" 0%N; EvSeek 0%N]
        ++ EvDecode "c" 0%N :: rest) /\
  (forall i n p,
      events o !! S i = Some (EvDecode n p) ->
      events o !! i = Some (EvSeek 0%N) /\ p = 0%N).
Proof.
  intros file.
  exact (load_rewinds_between_attempts one_file
           (registry [failing "a" 1; failing "b" 2; from_start "c" 3])
           "teapot.obj" (Some file) None file None
           [failing "a" 1; failing "b" 2] (from_start "c" 3) []
           [ {| message := "a"; exception_priority := 1 |};
             {| message := "b"; exception_priority := 2 |} ]
           eq_refl eq_refl eq_refl (fun _ => eq_refl)).
Defined.

(** On a seekable stream that the caller passes at offset 2, the first
    candidate reads from offset 2 and the second from offset 0: there is
    no one offset from which every attempt observes the stream. *)
Lemma load_attempts_at_different_offsets :
  let file := {| has_seek := true; seekable := true;
                 content := [Byte.x76; Byte.x20; Byte.x31; Byte.x0a];
                 position := 2%N; close_calls := 0 |} in
  let o := load one_file (registry [from_start "c" 3; from_start "d" 4])
             "teapot.obj" (Some file) None None in
  attempts (events o) = [("c", 2%N); ("d", 0%N)] /\
  ~ (exists start, Forall (fun a => a.2 = start) (attempts (events o))).
Proof.
  intros file o. split; [reflexivity|].
  intros [start Hall].
  change (attempts (events o)) with [("c", 2%N); ("d", 0%N)] in Hall.
  apply Forall_cons in Hall as [H2 Hall].
  apply Forall_cons in Hall as [H0 _].
  simpl in H2, H0. rewrite <- H2 in H0. discriminate.
Qed.

(** C5: once [load] has a stream, it raises the error "No decoders are
    available for this model format." exactly when no decoder was passed
    and the candidate list for the filename is empty; and in that case no
    decode call is made: the only action on the stream is closing it. *)
Theorem load_no_decoders_available
    {Model Batch : Type} fs
    (get_decoders : string -> list (ModelDecoder Model Batch))
    filename file decoder batch f orig :
  acquire fs filename file = Some (f, orig) ->
  let o := load fs get_decoders filename file decoder batch in
  (forall msg,
      result o = RaisedNoDecoders msg <->
      decoder = None /\ get_decoders filename = [] /\
      msg = no_decoders_message) /\
  (decoder = None -> get_decoders filename = [] -> events o = [EvClose]).
Proof.
  intros Hacq o. subst o.
  rewrite (load_unfold _ _ _ _ _ _ _ _ Hacq).
  split.
  - intros msg. split.
    + destruct decoder as [d|]; simpl.
      * destruct (decode d (content f) (position f) filename batch).1;
          discriminate.
      * destruct (exit (try_decoders filename batch (get_decoders filename)
                          None f)) as [m|c| |[e|]] eqn:Hexit;
          simpl; try discriminate.
        intros [= <-].
        apply try_decoders_done_None in Hexit as [Hds _].
        repeat split. exact Hds.
    + intros (-> & Hds & ->). simpl. rewrite Hds. reflexivity.
  - intros -> Hds. simpl. rewrite Hds. reflexivity.
Qed.

Lemma load_no_decoders_available_witness :
  let o := load one_file (registry []) "teapot.obj" None None None in
  (forall msg,
      result o = RaisedNoDecoders msg <->
      @None (ModelDecoder nat unit) = None /\
      registry [] "teapot.obj" = [] /\
      msg = no_decoders_message) /\
  (@None (ModelDecoder nat unit) = None ->
   registry [] "teapot.obj" = [] -> events o = [EvClose]).
Proof.
  exact (load_no_decoders_available one_file (registry []) "teapot.obj"
           None None None _ None eq_refl).
Defined.

(** When the file cannot be opened, [load] ends there. *)
Lemma load_open_failed
    {Model Batch : Type} fs
    (get_decoders : string -> list (ModelDecoder Model Batch))
    filename decoder batch :
  fs filename = None ->
  result (load fs get_decoders filename None decoder batch) = OpenFailed.
Proof.
  intros Hfs. unfold load, acquire, open. rewrite Hfs. reflexivity.
Qed.

(** A stream without [seek] that the caller passed is copied into memory;
    [load] closes the copy, not the caller's stream. *)
Lemma load_leaves_unseekable_stream_open
    {Model Batch : Type} fs
    (get_decoders : string -> list (ModelDecoder Model Batch))
    filename g decoder batch :
  has_seek g = false ->
  exists g',
    replaced (load fs get_decoders filename (Some g) decoder batch) = Some g'
    /\ close_calls g' = close_calls g.
Proof.
  intros Hseek.
  assert (Hacq : acquire fs filename (Some g) =
                 Some (BytesIO (read g).1, Some (read g).2)).
  { unfold acquire. rewrite Hseek. reflexivity. }
  rewrite (load_unfold _ _ _ _ _ _ _ _ Hacq). simpl.
  eexists. split; reflexivity.
Qed.

(** Runs of [load] on concrete candidates. *)
Example load_ranks_failures :
  result (load one_file
            (registry [failing "a" 5; failing "b" 10; failing "c" 10])
            "teapot.obj" None None None)
  = RaisedCaptured {| message := "b"; exception_priority := 10 |}.
Proof. reflexivity. Qed.

Example load_trace_with_rewind :
  let o := load one_file
             (registry [failing "a" 1; from_start "c" 3; crashing "z"])
             "teapot.obj" None None None in
  result o = Returned 3%nat /\
  events o = [EvDecode "a" 0%N; EvSeek 0%N; EvDecode "c" 0%N; EvClose].
Proof. split; reflexivity. Qed.

(** A seekable stream that the caller passes at offset 2 is read from
    there by the first candidate and from offset 0 by the next ones. *)
Example load_trace_on_advanced_stream :
  let file := {| has_seek := true; seekable := true;
                 content := [Byte.x76; Byte.x20; Byte.x31; Byte.x0a];
                 position := 2%N; close_calls := 0 |} in
  let o := load one_file (registry [from_start "c" 3; from_start "d" 4])
             "teapot.obj" (Some file) None None in
  result o = Returned 4%nat /\
  events o = [EvDecode "c" 2%N; EvSeek 0%N; EvDecode "d" 0%N; EvClose].
Proof. split; reflexivity. Qed.

(** A FIFO that [load] opens itself has [seek], so it is not copied, and
    cannot seek: the first decode failure ends the call. *)
Example load_trace_on_fifo :
  let o := load one_fifo (registry [failing "a" 1; succeeding "s" 7])
             "teapot.obj" None None None in
  result o = Propagated UnsupportedOperation /\
  events o = [EvDecode "a" 0%N; EvSeek 0%N; EvClose].
Proof. split; reflexivity. Qed.

Example load_explicit_decoder_failure :
  let o := load one_file (registry [succeeding "s" 1]) "teapot.obj" None
             (Some (failing "a" 5)) None in
  result o =
    Propagated (DecodeError {| message := "a"; exception_priority := 5 |})
  /\ events o = [EvDecode "a" 0%N; EvClose]
  /\ (close_calls <$> working o) = Some 1%nat.
Proof. repeat split. Qed.

(* ===================================================================== *)
(** * Properties of [Model] *)
(* ===================================================================== *)

Section ModelFacts.
Context `{MathLib}.

(** *** Assigning an attribute of every group of a list *)

Section FanOut.
Variables (upd : BaseMaterialGroup.t -> BaseMaterialGroup.t)
          (P : BaseMaterialGroup.t -> Prop).
Hypothesis upd_P : forall b, P (upd b).

Abbreviation assign := (update_object upd).
Abbreviation holds_at := (object_satisfies P).

Lemma group_base_map_base g : group_base (map_base upd g) = upd (group_base g).
Proof. destruct g; reflexivity. Qed.

Lemma assign_here store l :
  is_Some (store !! l) -> holds_at (assign store l) l.
Proof.
  intros [g Hg]. exists (map_base upd g). split.
  - unfold update_object. rewrite lookup_alter_eq, Hg. reflexivity.
  - rewrite group_base_map_base. apply upd_P.
Qed.

Lemma assign_keeps store l l' :
  holds_at store l -> holds_at (assign store l') l.
Proof.
  intros [g [Hg HP]]. destruct (decide (l' = l)) as [->|Hne].
  - apply assign_here. eauto.
  - exists g. split; [|exact HP].
    unfold update_object. rewrite lookup_alter_ne by exact Hne. exact Hg.
Qed.

Lemma assign_is_Some store l l' :
  is_Some (store !! l) -> is_Some (assign store l' !! l).
Proof.
  intros [g Hg]. destruct (decide (l' = l)) as [->|Hne];
    unfold update_object.
  - rewrite lookup_alter_eq, Hg. eauto.
  - rewrite lookup_alter_ne by exact Hne. eauto.
Qed.

Lemma foldl_assign_keeps ls :
  forall store l, holds_at store l -> holds_at (foldl assign store ls) l.
Proof.
  induction ls as [|a ls IH]; intros store l Hl; [exact Hl|].
  simpl. apply IH, assign_keeps, Hl.
Qed.

Lemma foldl_assign_is_Some ls :
  forall store l,
    is_Some (store !! l) -> is_Some (foldl assign store ls !! l).
Proof.
  induction ls as [|a ls IH]; intros store l Hl; [exact Hl|].
  simpl. apply IH, assign_is_Some, Hl.
Qed.

Lemma foldl_assign_elsewhere ls :
  forall store l, l ∉ ls -> foldl assign store ls !! l = store !! l.
Proof.
  induction ls as [|a ls IH]; intros store l Hl; [reflexivity|].
  apply not_elem_of_cons in Hl as [Hne Hl].
  simpl. rewrite IH by exact Hl.
  unfold update_object. apply lookup_alter_ne. congruence.
Qed.

(** After the loop, the property holds at every listed object. *)
Lemma foldl_assign_reaches ls :
  forall store l,
    l ∈ ls -> is_Some (store !! l) -> holds_at (foldl assign store ls) l.
Proof.
  induction ls as [|a ls IH]; intros store l Hin Hsome.
  - apply elem_of_nil in Hin. contradiction.
  - simpl. apply elem_of_cons in Hin as [->|Hin].
    + apply foldl_assign_keeps, assign_here, Hsome.
    + apply IH; [exact Hin|]. apply assign_is_Some, Hsome.
Qed.

End FanOut.

(** *** The migration loop *)

Lemma migrate_loop_Ref old new pairs :
  forall g,
    Model.migrate_loop (Ref old) pairs new g =
    Some {| batches := batches g;
            migrations := migrations g ++
              ((fun pair : positive * positive =>
                  {| source := old; vertex_list := pair.2;
                     mode := GL_TRIANGLES; group := pair.1;
                     target := new |}) <$> pairs) |}.
Proof.
  induction pairs as [|[group vlist] pairs IH]; intros g.
  - simpl. rewrite app_nil_r. destruct g; reflexivity.
  - simpl. rewrite IH. simpl. rewrite <- app_assoc. reflexivity.
Qed.

Lemma batch_setter_migrates (self : Model.t) old new g :
  Model._batch self = Ref old -> old <> new ->
  Model.batch_setter self (Ref new) g =
  (Model.set_batch (Ref new) self,
   {| batches := batches g;
      migrations := migrations g ++ Model.migrations_of self old new |},
   Model.Completed).
Proof.
  intros Hold Hne. unfold Model.batch_setter. rewrite Hold.
  destruct (decide (Ref old = Ref new)) as [Heq|_]; [congruence|].
  rewrite migrate_loop_Ref. reflexivity.
Qed.

End ModelFacts.

(** C6: after the rotation setter ran with [v], the model's rotation is
    [v], its list of groups is the same, and every group of the model
    holds [v] as its rotation; after the translation setter ran with [v],
    the same for the translation.  This holds for every model, with or
    without groups. *)
Theorem setters_reach_every_group `{MathLib}
    (self : Model.t) (v : pyval) (store : gmap positive Group) :
  (let r := Model.rotation_setter self v store in
   Model.rotation r.1 = v /\
   Model.groups r.1 = Model.groups self /\
   forall l, l ∈ Model.groups self -> is_Some (store !! l) ->
     exists g, r.2 !! l = Some g /\
               BaseMaterialGroup.rotation (group_base g) = v) /\
  (let r := Model.translation_setter self v store in
   Model.translation r.1 = v /\
   Model.groups r.1 = Model.groups self /\
   forall l, l ∈ Model.groups self -> is_Some (store !! l) ->
     exists g, r.2 !! l = Some g /\
               BaseMaterialGroup.translation (group_base g) = v).
Proof.
  split; simpl.
  - split; [reflexivity|]. split; [reflexivity|]. intros l Hin Hsome.
    apply (foldl_assign_reaches (BaseMaterialGroup.set_rotation v)
             (fun b => BaseMaterialGroup.rotation b = v));
      [reflexivity | exact Hin | exact Hsome].
  - split; [reflexivity|]. split; [reflexivity|]. intros l Hin Hsome.
    apply (foldl_assign_reaches (BaseMaterialGroup.set_translation v)
             (fun b => BaseMaterialGroup.translation b = v));
      [reflexivity | exact Hin | exact Hsome].
Qed.

Lemma setters_reach_every_group_witness :
  let v := @PyTuple term_math [PyInt 90; PyInt 0; PyInt 0] in
  (let r := Model.rotation_setter two_parts v two_groups in
   Model.rotation r.1 = v /\
   exists g, r.2 !! 11%positive = Some g /\
             BaseMaterialGroup.rotation (group_base g) = v) /\
  (let r := Model.translation_setter two_parts v two_groups in
   Model.translation r.1 = v /\
   exists g, r.2 !! 11%positive = Some g /\
             BaseMaterialGroup.translation (group_base g) = v).
Proof.
  intros v.
  destruct (@setters_reach_every_group term_math two_parts v two_groups)
    as [(Hr & _ & Hrg) (Ht & _ & Htg)].
  assert (Hin : 11%positive ∈ Model.groups two_parts)
    by apply list_elem_of_further, list_elem_of_here.
  assert (Hsome : is_Some (two_groups !! 11%positive))
    by (exists (Untextured (MaterialGroup.__init__ plain)); reflexivity).
  split; (split; [assumption|]).
  - exact (Hrg _ Hin Hsome).
  - exact (Htg _ Hin Hsome).
Defined.

(** A model without groups: the setter still stores the value. *)
Example rotation_setter_on_empty_model :
  let v := @PyTuple term_math [PyInt 90; PyInt 0; PyInt 0] in
  Model.rotation
    (Model.rotation_setter (Model.__init__ [] [] (Ref 1)) v ∅).1 = v.
Proof. reflexivity. Qed.

(** The setters leave every other object of the store as it was. *)
Lemma rotation_setter_elsewhere `{MathLib}
    (self : Model.t) (v : pyval) (store : gmap positive Group)
    (l : positive) :
  l ∉ Model.groups self ->
  (Model.rotation_setter self v store).2 !! l = store !! l.
Proof. apply foldl_assign_elsewhere. Qed.

(** X23: on a model that has a batch, the batch setter (1) does nothing
    when the assigned batch is the current one (also for a model without
    a batch to which [None] is assigned); (2) when [None] is assigned,
    allocates a batch that did not exist before and installs it; (3) when
    another batch is assigned, installs it.  In (2) and (3) the old batch
    receives one [migrate] call per pair of [zip(groups, vertex_lists)],
    in order, with [GL_TRIANGLES], the group of the pair, and the new
    batch as target. *)
Theorem batch_setter_behaviour `{MathLib}
    (self : Model.t) (batch : pyref) (g : graphics) :
  (Model._batch self = batch ->
   Model.batch_setter self batch g = (self, g, Model.Completed)) /\
  (forall old,
      Model._batch self = Ref old -> batch = RefNone ->
      let b := fresh (batches g) in
      (b ∉ batches g) /\
      Model.batch_setter self batch g =
      (Model.set_batch (Ref b) self,
       {| batches := {[ b ]} ∪ batches g;
          migrations := migrations g ++ Model.migrations_of self old b |},
       Model.Completed)) /\
  (forall old new,
      Model._batch self = Ref old -> batch = Ref new -> old <> new ->
      Model.batch_setter self batch g =
      (Model.set_batch (Ref new) self,
       {| batches := batches g;
          migrations := migrations g ++ Model.migrations_of self old new |},
       Model.Completed)).
Proof.
  split; [|split].
  - intros Heq. unfold Model.batch_setter.
    destruct (decide (Model._batch self = batch)); [reflexivity|].
    contradiction.
  - intros old Hold -> b. split; [apply is_fresh|].
    unfold Model.batch_setter. rewrite Hold.
    destruct (decide (Ref old = RefNone)) as [Heq|_]; [discriminate|].
    simpl. rewrite migrate_loop_Ref. reflexivity.
  - intros old new Hold -> Hne. apply batch_setter_migrates; assumption.
Qed.

Lemma batch_setter_behaviour_witness :
  Model.batch_setter two_parts (Ref 2) one_batch =
  (Model.set_batch (Ref 2) two_parts,
   {| batches := batches one_batch;
      migrations :=
        [ {| source := 1; vertex_list := 20; mode := 4; group := 10;
             target := 2 |};
          {| source := 1; vertex_list := 21; mode := 4; group := 11;
             target := 2 |} ] |},
   Model.Completed).
Proof.
  apply (proj2 (proj2 (@batch_setter_behaviour term_math two_parts (Ref 2)
                         one_batch)) 1%positive 2%positive);
    [reflexivity | reflexivity | discriminate].
Defined.

(** C7: a model built with [None] as its batch has nothing to call
    [migrate] on: assigning a batch to it raises [AttributeError] at the
    first pair of [zip(groups, vertex_lists)]; no [migrate] call is made
    and the batch is not installed, the model is left without a batch. *)
Theorem batch_setter_without_batch `{MathLib}
    (self : Model.t) (new : positive) (g : graphics) :
  Model._batch self = RefNone ->
  zip (Model.groups self) (Model.vertex_lists self) <> [] ->
  Model.batch_setter self (Ref new) g = (self, g, Model.AttributeError).
Proof.
  intros Hnone Hpairs. unfold Model.batch_setter. rewrite Hnone.
  destruct (decide (RefNone = Ref new)) as [Heq|_]; [discriminate|].
  destruct (zip (Model.groups self) (Model.vertex_lists self))
    as [|[group vlist] pairs]; [contradiction|].
  reflexivity.
Qed.

Lemma batch_setter_without_batch_witness :
  let self := @Model.__init__ term_math [20%positive] [10%positive]
                RefNone in
  Model.batch_setter self (Ref 2) one_batch =
  (self, one_batch, Model.AttributeError).
Proof.
  intros self.
  apply (@batch_setter_without_batch term_math self 2%positive one_batch);
    [reflexivity | discriminate].
Defined.

(** Such a model cannot be drawn either. *)
Example draw_without_batch :
  Model.draw (@Model.__init__ term_math [20%positive] [10%positive]
                RefNone) = None.
Proof. reflexivity. Qed.

(* ===================================================================== *)
(** * Properties of the rendering groups *)
(* ===================================================================== *)

Section GroupFacts.
Context `{MathLib}.

Lemma radians_item_Some (v : pyval) i a :
  getitem v i ≫= as_float = Some a ->
  radians_item v i = Some (radians a).
Proof. intros Ha. unfold radians_item. rewrite Ha. reflexivity. Qed.

(** The matrix computed from well-formed transforms. *)
Lemma view_matrix_composition (self : BaseMaterialGroup.t)
    a b c tx ty tz rx ry rz :
  BaseMaterialGroup.translation self = PyTuple [a; b; c] ->
  as_float a = Some tx -> as_float b = Some ty -> as_float c = Some tz ->
  getitem (BaseMaterialGroup.rotation self) 0 ≫= as_float = Some rx ->
  getitem (BaseMaterialGroup.rotation self) 1 ≫= as_float = Some ry ->
  getitem (BaseMaterialGroup.rotation self) 2 ≫= as_float = Some rz ->
  BaseMaterialGroup.view_matrix self =
  Some (matmul
          (matmul
             (matmul (rotate Mat4_new (radians rz) AxisZ)
                     (rotate Mat4_new (radians ry) AxisY))
             (rotate Mat4_new (radians rx) AxisX))
          (from_translation tx ty tz)).
Proof.
  intros Ht Ha Hb Hc Hx Hy Hz. unfold BaseMaterialGroup.view_matrix.
  rewrite Ht. simpl. rewrite Ha, Hb, Hc. simpl.
  rewrite (radians_item_Some _ _ _ Hx), (radians_item_Some _ _ _ Hy),
    (radians_item_Some _ _ _ Hz).
  reflexivity.
Qed.

(** [==] with a group on the left never consults the right operand. *)
Lemma dunder_eq_group a g o : dunder_eq (GroupObject a g) o = Answer false.
Proof. destruct g; reflexivity. Qed.

End GroupFacts.

(** C8: for a group of either class whose translation is a sequence of
    three numbers and whose rotation has numbers at indices 0, 1 and 2,
    [set_state] completes, and the last thing it does, after activating
    the program, is to assign to [view] of the program's 'WindowBlock' the
    product ((Rz @ Ry) @ Rx) @ T, where T is [from_translation] of the
    translation and Rx, Ry, Rz are [Mat4().rotate] about the x, y and z
    axis by [radians] of the angles at indices 0, 1 and 2. *)
Theorem set_state_uploads_composed_view `{MathLib}
    (g : Group) a b c tx ty tz rx ry rz :
  BaseMaterialGroup.translation (group_base g) = PyTuple [a; b; c] ->
  as_float a = Some tx -> as_float b = Some ty -> as_float c = Some tz ->
  getitem (BaseMaterialGroup.rotation (group_base g)) 0 ≫= as_float
    = Some rx ->
  getitem (BaseMaterialGroup.rotation (group_base g)) 1 ≫= as_float
    = Some ry ->
  getitem (BaseMaterialGroup.rotation (group_base g)) 2 ≫= as_float
    = Some rz ->
  let Rx := rotate Mat4_new (radians rx) AxisX in
  let Ry := rotate Mat4_new (radians ry) AxisY in
  let Rz := rotate Mat4_new (radians rz) AxisZ in
  let T := from_translation tx ty tz in
  let program := BaseMaterialGroup.program (group_base g) in
  raised (set_state g) = false /\
  exists before,
    calls (set_state g) =
      before ++ [view_assign program "WindowBlock"
                   (matmul (matmul (matmul Rz Ry) Rx) T)] /\
    last before = Some (program_use program).
Proof.
  intros Ht Ha Hb Hc Hx Hy Hz Rx Ry Rz T program.
  pose proof (view_matrix_composition (group_base g) a b c tx ty tz
                rx ry rz Ht Ha Hb Hc Hx Hy Hz) as Hview.
  destruct g as [t|m]; simpl in *.
  - unfold TexturedMaterialGroup.set_state,
      BaseMaterialGroup._set_modelview_matrix.
    rewrite Hview. split; [reflexivity|].
    exists [glActiveTexture GL_TEXTURE0;
            glBindTexture
              (texture_target (TexturedMaterialGroup.texture t))
              (texture_id (TexturedMaterialGroup.texture t));
            program_use program].
    split; reflexivity.
  - unfold MaterialGroup.set_state,
      BaseMaterialGroup._set_modelview_matrix.
    rewrite Hview. split; [reflexivity|].
    exists [program_use program]. split; reflexivity.
Qed.

Lemma set_state_uploads_composed_view_witness :
  let g := @Textured term_math
             {| TexturedMaterialGroup.base :=
                  BaseMaterialGroup.set_translation
                    (PyTuple [PyInt 1; PyInt 2; PyInt 3])
                    (BaseMaterialGroup.set_rotation
                       (PyTuple [PyInt 90; PyInt 45; PyInt 30])
                       (BaseMaterialGroup.__init__ TexturedDefaultProgram
                                                   plain));
                TexturedMaterialGroup.texture :=
                  {| texture_id := 3; texture_target := 3553 |} |} in
  raised (set_state g) = false /\
  exists before,
    calls (set_state g) =
      before ++
      [@view_assign term_math TexturedDefaultProgram "WindowBlock"
         (MMatmul
            (MMatmul
               (MMatmul (MRotate MNew (FRadians (FInt 30)) AxisZ)
                        (MRotate MNew (FRadians (FInt 45)) AxisY))
               (MRotate MNew (FRadians (FInt 90)) AxisX))
            (MTranslation (FInt 1) (FInt 2) (FInt 3)))] /\
    last before = Some (@program_use term_math TexturedDefaultProgram).
Proof.
  intros g.
  apply (@set_state_uploads_composed_view term_math g
           (PyInt 1) (PyInt 2) (PyInt 3) (FInt 1) (FInt 2) (FInt 3)
           (FInt 90) (FInt 45) (FInt 30));
    reflexivity.
Defined.

(** Transforms of another shape make [set_state] raise after the program
    was activated, with nothing assigned to the uniform block. *)
Example set_state_malformed_rotation :
  let g := @Untextured term_math
             {| MaterialGroup.base :=
                  BaseMaterialGroup.set_rotation (PyTuple [PyInt 90])
                    (BaseMaterialGroup.__init__ MaterialDefaultProgram
                                                plain) |} in
  set_state g =
  {| calls := [@program_use term_math MaterialDefaultProgram];
     raised := true |}.
Proof. reflexivity. Qed.

(** C9: the object that [MaterialGroup.__hash__] hands to [hash] is the
    integer [id(self.parent)] itself, which is not the one-element tuple
    [(id(self.parent),)]; [TexturedMaterialGroup.__hash__] hashes the
    tuple of [id(self.parent)], [texture.id] and [texture.target]. *)
Theorem material_group_hashes_bare_id `{MathLib} `{!Builtins}
    (m : MaterialGroup.t) (t : TexturedMaterialGroup.t) :
  let pid := id (BaseMaterialGroup.parent (MaterialGroup.base m)) in
  MaterialGroup.__hash__ m = hash (PyInt pid) /\
  MaterialGroup.hash_argument m <> PyTuple [PyInt pid] /\
  TexturedMaterialGroup.__hash__ t =
    hash (PyTuple
            [PyInt (id (BaseMaterialGroup.parent
                          (TexturedMaterialGroup.base t)));
             PyInt (texture_id (TexturedMaterialGroup.texture t));
             PyInt (texture_target (TexturedMaterialGroup.texture t))]).
Proof.
  intros pid. split; [reflexivity|]. split; [|reflexivity].
  unfold MaterialGroup.hash_argument. discriminate.
Qed.

(** With builtins in the manner of CPython, the hash of a freshly built
    untextured group differs from the hash of the one-element tuple. *)
Example material_group_hash_is_not_tuple_hash :
  let m := @MaterialGroup.__init__ term_math plain in
  let pid := @id term_math term_builtins
               (BaseMaterialGroup.parent (MaterialGroup.base m)) in
  @MaterialGroup.__hash__ term_math term_builtins m = 0 /\
  @hash term_math term_builtins (PyTuple [PyInt pid]) = 32 /\
  @MaterialGroup.__hash__ term_math term_builtins m
    <> @hash term_math term_builtins (PyTuple [PyInt pid]).
Proof. repeat split. discriminate. Qed.

(** So it is not the case that, whatever [hash] is, the untextured group
    hashes to the hash of the one-element tuple. *)
Lemma material_group_hash_tuple_refuted :
  ~ (forall (M : MathLib) (B : @Builtins M) (m : @MaterialGroup.t M),
        @MaterialGroup.__hash__ M B m =
        @hash M B (PyTuple [PyInt (@id M B (BaseMaterialGroup.parent
                                              (MaterialGroup.base m)))])).
Proof.
  intros Hall.
  specialize (Hall term_math term_builtins
                (@MaterialGroup.__init__ term_math plain)).
  discriminate Hall.
Qed.

(** Two distinct group objects compare unequal, whatever they hold. *)
Lemma distinct_groups_unequal `{MathLib} a1 a2 (g1 g2 : Group) :
  a1 <> a2 -> py_eq (GroupObject a1 g1) (GroupObject a2 g2) = false.
Proof. intros _. unfold py_eq. rewrite dunder_eq_group. reflexivity. Qed.

(** C10: for a group object of either class on the left, [==] answers
    [False] for every right operand, whatever [__eq__] that operand has,
    and in particular when the right operand is the group object itself. *)
Theorem group_eq_always_false `{MathLib}
    (a : positive) (g : Group) (o : pyobject) :
  py_eq (GroupObject a g) o = false /\
  py_eq (GroupObject a g) (GroupObject a g) = false.
Proof.
  unfold py_eq. rewrite !dunder_eq_group. split; reflexivity.
Qed.

(** A foreign object whose [__eq__] answers [True] is equal to a group
    when it is the left operand, and still unequal as the right one. *)
Example group_eq_is_not_symmetric :
  let g := GroupObject 10 (@Untextured term_math
                             (MaterialGroup.__init__ plain)) in
  let o := @ForeignObject term_math 11 (fun _ => Answer true) in
  py_eq g o = false /\ py_eq o g = true.
Proof. split; reflexivity. Qed.

(* ===================================================================== *)
(** * Further properties of [load] *)
(* ===================================================================== *)

Section LoadMore.
Context {Model Batch : Type}.
Variables (filename : string) (batch : option Batch).

Abbreviation decoder' := (ModelDecoder Model Batch).
Abbreviation loop' := (@try_decoders Model Batch filename batch).
Abbreviation outcome' := (@outcome_at Model Batch filename batch).
Abbreviation rewind' := (@rewound Model Batch filename batch).

Lemma try_decoders_first_crash (pre : list decoder') d post c :
  forall es acc f,
    imap (outcome' f) pre = Failed <$> es ->
    (pre <> [] -> seekable f = true) ->
    outcome' f (length pre) d = Crashed c ->
    exit (loop' (pre ++ d :: post) acc f) = LoopRaise c /\
    attempts (trace (loop' (pre ++ d :: post) acc f)) =
      imap (attempt_of f) (pre ++ [d]).
Proof.
  induction pre as [|d0 pre IH]; intros es acc f Hpre Hs Hd.
  - simpl app. rewrite try_decoders_cons. simpl in Hd. rewrite Hd.
    split; reflexivity.
  - destruct es as [|e es]; [discriminate|].
    rewrite imap_cons in Hpre. simpl in Hpre.
    injection Hpre as Hd0 Hrest.
    simpl app. rewrite try_decoders_cons, Hd0, Hs by discriminate.
    simpl.
    destruct (IH es (retain acc e) (rewind' d0 f)) as [Hexit Hatt].
    + rewrite imap_outcome_rewound. exact Hrest.
    + intros _. apply Hs. discriminate.
    + rewrite <- Hd. apply outcome_after_rewind; reflexivity.
    + split; [exact Hexit|].
      rewrite Hatt, (imap_attempt_of_rewound filename batch d0 f).
      reflexivity.
Qed.

(** The loop never changes the bytes of the stream. *)
Lemma try_decoders_content (ds : list decoder') :
  forall acc f, content (stream (loop' ds acc f)) = content f.
Proof.
  induction ds as [|d ds IH]; intros acc f; [reflexivity|].
  rewrite try_decoders_cons.
  destruct (outcome' f 0%nat d) as [m|e|x]; simpl; try reflexivity.
  destruct (seekable f); simpl; [|reflexivity].
  rewrite IH. reflexivity.
Qed.

Lemma try_decoders_has_seek (ds : list decoder') :
  forall acc f, has_seek (stream (loop' ds acc f)) = has_seek f.
Proof.
  induction ds as [|d ds IH]; intros acc f; [reflexivity|].
  rewrite try_decoders_cons.
  destruct (outcome' f 0%nat d) as [m|e|x]; simpl; try reflexivity.
  destruct (seekable f); simpl; [|reflexivity].
  rewrite IH. reflexivity.
Qed.

(** The trace and the final position when every candidate fails. *)
Lemma try_decoders_all_fail_trace (ds : list decoder') :
  forall es acc f,
    seekable f = true ->
    imap (outcome' f) ds = Failed <$> es ->
    trace (loop' ds acc f) =
      concat (failed_attempt <$> imap (attempt_of f) ds) /\
    position (stream (loop' ds acc f)) =
      attempt_position f (length ds).
Proof.
  induction ds as [|d ds IH]; intros es acc f Hs Hall.
  - split; reflexivity.
  - destruct es as [|e es]; [discriminate|].
    rewrite imap_cons in Hall. simpl in Hall.
    injection Hall as Hd Hrest.
    rewrite try_decoders_cons, Hd, Hs. simpl.
    destruct (IH es (retain acc e) (rewind' d f)) as [Htr Hpos].
    { exact Hs. }
    { rewrite imap_outcome_rewound. exact Hrest. }
    split.
    + rewrite Htr, (imap_attempt_of_rewound filename batch d f).
      reflexivity.
    + rewrite Hpos. destruct (length ds); reflexivity.
Qed.

(** Why the loop was left, read back from its exit. *)
Lemma try_decoders_inversion (ds : list decoder') :
  forall acc f,
    match exit (loop' ds acc f) with
    | LoopReturn m =>
        exists pre d post es,
          ds = pre ++ d :: post /\
          imap (outcome' f) pre = Failed <$> es /\
          outcome' f (length pre) d = Decoded m /\
          (pre <> [] -> seekable f = true)
    | LoopRaise c =>
        exists pre d post es,
          ds = pre ++ d :: post /\
          imap (outcome' f) pre = Failed <$> es /\
          outcome' f (length pre) d = Crashed c /\
          (pre <> [] -> seekable f = true)
    | LoopSeekRaise =>
        seekable f = false /\
        exists d rest e, ds = d :: rest /\ outcome' f 0%nat d = Failed e
    | LoopDone r =>
        (ds <> [] -> seekable f = true) /\
        exists es,
          imap (outcome' f) ds = Failed <$> es /\
          r = foldl retain acc es
    end.
Proof.
  induction ds as [|d ds IH]; intros acc f.
  - simpl. split; [congruence|]. exists []. split; reflexivity.
  - rewrite try_decoders_cons.
    destruct (outcome' f 0%nat d) as [m|e|x] eqn:Hd; simpl.
    + exists [], d, ds, []. repeat split; [exact Hd | congruence].
    + destruct (seekable f) eqn:Hs; simpl.
      * specialize (IH (retain acc e) (rewind' d f)).
        destruct (exit (loop' ds (retain acc e) (rewind' d f)))
          as [m|c| |r].
        -- destruct IH as (pre & d1 & post & es & -> & Hpre & Hd1 & _).
           rewrite imap_outcome_rewound in Hpre.
           exists (d :: pre), d1, post, (e :: es).
           split; [reflexivity|]. split; [|split; [|reflexivity]].
           ++ rewrite imap_cons. simpl. rewrite Hd, Hpre. reflexivity.
           ++ rewrite <- Hd1. symmetry.
              apply outcome_after_rewind; reflexivity.
        -- destruct IH as (pre & d1 & post & es & -> & Hpre & Hd1 & _).
           rewrite imap_outcome_rewound in Hpre.
           exists (d :: pre), d1, post, (e :: es).
           split; [reflexivity|]. split; [|split; [|reflexivity]].
           ++ rewrite imap_cons. simpl. rewrite Hd, Hpre. reflexivity.
           ++ rewrite <- Hd1. symmetry.
              apply outcome_after_rewind; reflexivity.
        -- destruct IH as [Hno _]. simpl in Hno. congruence.
        -- destruct IH as (_ & es & Hrest & ->).
           rewrite imap_outcome_rewound in Hrest.
           split; [reflexivity|].
           exists (e :: es). split; [|reflexivity].
           rewrite Hd, Hrest. reflexivity.
      * split; [reflexivity|]. exists d, ds, e. split; [reflexivity|].
        exact Hd.
    + exists [], d, ds, []. repeat split; [exact Hd | congruence].
Qed.

(** On a stream at offset 0 every attempt of the loop runs at offset 0. *)
Lemma try_decoders_attempts_at_zero (ds : list decoder') acc f :
  position f = 0%N ->
  Forall (fun a : string * N => a.2 = 0%N)
         (attempts (trace (loop' ds acc f))).
Proof.
  intros Hpos.
  destruct (try_decoders_attempts_prefix filename batch ds acc f)
    as [rest Hrest].
  assert (Hall : Forall (fun a : string * N => a.2 = 0%N)
                   (imap (attempt_of f) ds)).
  { apply Forall_lookup. intros i a Hi.
    rewrite list_lookup_imap in Hi.
    destruct (ds !! i) as [d|]; [|discriminate].
    injection Hi as <-. destruct i; [exact Hpos | reflexivity]. }
  rewrite Hrest in Hall. apply Forall_app in Hall as [Hall _].
  exact Hall.
Qed.

End LoadMore.

(** X1: with an explicit decoder, [load] makes exactly one decode call, on
    that decoder, does not rewind, and passes on whatever the call does: a
    decode failure propagates as it is, neither caught nor ranked.  The
    registered candidates play no part. *)
Theorem load_explicit_decoder_alone
    {Model Batch : Type} fs
    (get_decoders : string -> list (ModelDecoder Model Batch))
    filename file batch d f orig :
  acquire fs filename file = Some (f, orig) ->
  let o := load fs get_decoders filename file (Some d) batch in
  events o = [EvDecode (decoder_name d) (position f); EvClose] /\
  result o =
    match outcome_at filename batch f 0 d with
    | Decoded m => Returned m
    | Failed e => Propagated (DecodeError e)
    | Crashed c => Propagated (OtherError c)
    end /\
  forall others, load fs others filename file (Some d) batch = o.
Proof.
  intros Hacq o. subst o.
  rewrite (load_unfold _ _ _ _ _ _ _ _ Hacq).
  split; [reflexivity|]. split; [reflexivity|].
  intros others. rewrite (load_unfold _ _ _ _ _ _ _ _ Hacq). reflexivity.
Qed.

Lemma load_explicit_decoder_alone_witness :
  let o := load one_file (registry [succeeding "s" 1]) "teapot.obj" None
             (Some (failing "a" 5)) None in
  events o = [EvDecode "a" 0%N; EvClose] /\
  result o =
    Propagated (DecodeError {| message := "a"; exception_priority := 5 |})
  /\
  forall others,
    load one_file others "teapot.obj" None (Some (failing "a" 5)) None = o.
Proof.
  exact (load_explicit_decoder_alone one_file
           (registry [succeeding "s" 1]) "teapot.obj" None None
           (failing "a" 5) _ None eq_refl).
Defined.

(** X2: when a candidate raises an exception that is not a decode failure
    after all candidates before it raised decode failures, on a stream
    that can be rewound if there are such candidates, [load] lets that
    exception through: the failures captured so far are dropped, no later
    candidate is invoked, and the stream is closed last. *)
Theorem load_other_exception_stops_fallback
    {Model Batch : Type} fs
    (get_decoders : string -> list (ModelDecoder Model Batch))
    filename file batch f orig pre d post es c :
  acquire fs filename file = Some (f, orig) ->
  (pre <> [] -> seekable f = true) ->
  get_decoders filename = pre ++ d :: post ->
  imap (outcome_at filename batch f) pre = Failed <$> es ->
  outcome_at filename batch f (length pre) d = Crashed c ->
  let o := load fs get_decoders filename file None batch in
  result o = Propagated (OtherError c) /\
  attempts (events o) = imap (attempt_of f) (pre ++ [d]) /\
  last (events o) = Some EvClose.
Proof.
  intros Hacq Hs Hds Hpre Hd o. subst o.
  rewrite (load_unfold _ _ _ _ _ _ _ _ Hacq). simpl. rewrite Hds.
  destruct (try_decoders_first_crash filename batch pre d post c
              es None f Hpre Hs Hd) as [Hexit Hatt].
  rewrite Hexit, attempts_snoc_close, Hatt, last_snoc.
  repeat split.
Qed.

Lemma load_other_exception_stops_fallback_witness :
  let o := load one_file
             (registry [failing "a" 5; crashing "z"; succeeding "s" 1])
             "teapot.obj" None None None in
  result o = Propagated (OtherError "ValueError") /\
  attempts (events o) = [("a", 0%N); ("z", 0%N)] /\
  last (events o) = Some EvClose.
Proof.
  exact (load_other_exception_stops_fallback one_file
           (registry [failing "a" 5; crashing "z"; succeeding "s" 1])
           "teapot.obj" None None _ None
           [failing "a" 5] (crashing "z") [succeeding "s" 1]
           [ {| message := "a"; exception_priority := 5 |} ] "ValueError"
           eq_refl (fun _ => eq_refl) eq_refl eq_refl eq_refl).
Defined.

(** X3: every way [load] without an explicit decoder can end, read back
    from its result.  A returned Model was built by a candidate all of
    whose predecessors raised decode failures; an exception of a decoder
    that is let through came from such a candidate and is not a decode
    failure; in both cases the stream could be rewound if there were
    predecessors.  The exception of [seek] means that the first candidate
    raised a decode failure on a stream that cannot seek.  A re-raised
    failure means that the list is not empty, that the stream can be
    rewound, that every candidate raised a decode failure, and it is the
    first of highest priority; the "no decoders" error means that the
    list is empty.  A decode failure is never let through unranked. *)
Theorem load_fallback_cases
    {Model Batch : Type} fs
    (get_decoders : string -> list (ModelDecoder Model Batch))
    filename file batch f orig :
  acquire fs filename file = Some (f, orig) ->
  let ds := get_decoders filename in
  match result (load fs get_decoders filename file None batch) with
  | Returned m =>
      exists pre d post es,
        ds = pre ++ d :: post /\
        imap (outcome_at filename batch f) pre = Failed <$> es /\
        outcome_at filename batch f (length pre) d = Decoded m /\
        (pre <> [] -> seekable f = true)
  | Propagated (OtherError c) =>
      exists pre d post es,
        ds = pre ++ d :: post /\
        imap (outcome_at filename batch f) pre = Failed <$> es /\
        outcome_at filename batch f (length pre) d = Crashed c /\
        (pre <> [] -> seekable f = true)
  | Propagated UnsupportedOperation =>
      seekable f = false /\
      exists d rest e,
        ds = d :: rest /\ outcome_at filename batch f 0 d = Failed e
  | Propagated (DecodeError _) => False
  | RaisedCaptured e =>
      ds <> [] /\ seekable f = true /\
      exists es i,
        imap (outcome_at filename batch f) ds = Failed <$> es /\
        first_highest es i e
  | RaisedNoDecoders _ => ds = []
  | OpenFailed => False
  end.
Proof.
  intros Hacq ds. subst ds.
  rewrite (load_unfold _ _ _ _ _ _ _ _ Hacq). simpl.
  pose proof (try_decoders_inversion filename batch
                (get_decoders filename) None f) as Hinv.
  destruct (exit (try_decoders filename batch (get_decoders filename)
                    None f)) as [m|c| |[e|]]; simpl.
  - exact Hinv.
  - exact Hinv.
  - exact Hinv.
  - destruct Hinv as (Hs & es & Hall & Hfold).
    destruct es as [|a es]; [discriminate|].
    assert (Hne : get_decoders filename <> []).
    { intros Hnil. rewrite Hnil in Hall. discriminate. }
    split; [exact Hne|]. split; [exact (Hs Hne)|].
    change (foldl retain None (a :: es))
      with (foldl retain (Some a) es) in Hfold.
    destruct (foldl_retain_first_highest a es)
      as (i & e' & Hfold' & Hfh).
    rewrite Hfold' in Hfold. injection Hfold as ->.
    exists (a :: es), i. split; assumption.
  - destruct Hinv as (_ & es & Hall & Hfold).
    destruct es as [|a es].
    + destruct (get_decoders filename); [reflexivity | discriminate].
    + change (foldl retain None (a :: es))
        with (foldl retain (Some a) es) in Hfold.
      destruct (foldl_retain_first_highest a es)
        as (i & e' & Hfold' & _).
      rewrite Hfold' in Hfold. discriminate.
Qed.

Lemma load_fallback_cases_witness :
  exists pre d post es,
    registry [failing "a" 5; succeeding "s" 1; crashing "z"] "teapot.obj"
      = pre ++ d :: post /\
    imap (outcome_at "teapot.obj" None
            {| has_seek := true; seekable := true;
               content := [Byte.x76; Byte.x20; Byte.x31; Byte.x0a];
               position := 0%N; close_calls := 0 |}) pre
      = Failed <$> es /\
    outcome_at "teapot.obj" None
      {| has_seek := true; seekable := true;
         content := [Byte.x76; Byte.x20; Byte.x31; Byte.x0a];
         position := 0%N; close_calls := 0 |} (length pre) d
      = Decoded 1%nat /\
    (pre <> [] -> true = true).
Proof.
  exact (load_fallback_cases one_file
           (registry [failing "a" 5; succeeding "s" 1; crashing "z"])
           "teapot.obj" None None _ None eq_refl).
Defined.

(** X4: when every candidate raises a decode failure on a stream that can
    be rewound, the trace of [load] is, for each candidate in order, its
    decode call followed by [seek(0)], and then the close: the stream is
    rewound after the last failure as well, and is at offset 0 when it is
    closed. *)
Theorem load_exhausted_trace
    {Model Batch : Type} fs
    (get_decoders : string -> list (ModelDecoder Model Batch))
    filename file batch f orig es :
  acquire fs filename file = Some (f, orig) ->
  seekable f = true ->
  get_decoders filename <> [] ->
  imap (outcome_at filename batch f) (get_decoders filename)
    = Failed <$> es ->
  let o := load fs get_decoders filename file None batch in
  events o =
    concat (failed_attempt <$>
              imap (attempt_of f) (get_decoders filename))
    ++ [EvClose] /\
  (position <$> working o) = Some 0%N.
Proof.
  intros Hacq Hs Hne Hall o. subst o.
  rewrite (load_unfold _ _ _ _ _ _ _ _ Hacq). simpl.
  destruct (try_decoders_all_fail_trace filename batch
              (get_decoders filename) es None f Hs Hall) as [Htr Hpos].
  rewrite Htr, Hpos. split; [reflexivity|].
  destruct (get_decoders filename); [contradiction | reflexivity].
Qed.

Lemma load_exhausted_trace_witness :
  let o := load one_file (registry [failing "a" 5; failing "b" 10])
             "teapot.obj" None None None in
  events o = [EvDecode "a" 0%N; EvSeek 0%N;
              EvDecode "b" 0%N; EvSeek 0%N; EvClose] /\
  (position <$> working o) = Some 0%N.
Proof.
  exact (load_exhausted_trace one_file
           (registry [failing "a" 5; failing "b" 10])
           "teapot.obj" None None _ None
           [ {| message := "a"; exception_priority := 5 |};
             {| message := "b"; exception_priority := 10 |} ]
           eq_refl eq_refl ltac:(discriminate) eq_refl).
Defined.

(** X5: a stream without [seek] that the caller passes is read to its end
    and copied: the decoders work on the bytes that were left in it, every
    attempt from offset 0 of the copy, and it is the copy that is closed;
    the caller's stream is never closed. *)
Theorem load_copies_unseekable_stream
    {Model Batch : Type} fs
    (get_decoders : string -> list (ModelDecoder Model Batch))
    filename g decoder batch :
  has_seek g = false ->
  let o := load fs get_decoders filename (Some g) decoder batch in
  let left := drop (N.to_nat (position g)) (content g) in
  (exists w, working o = Some w /\ content w = left /\
             close_calls w = 1%nat) /\
  (exists g', replaced o = Some g' /\ close_calls g' = close_calls g /\
              content g' = content g /\ read g' = ([], g')) /\
  Forall (fun a => a.2 = 0%N) (attempts (events o)).
Proof.
  intros Hseek o left. subst o left.
  assert (Hacq : acquire fs filename (Some g) =
                 Some (BytesIO (read g).1, Some (read g).2)).
  { unfold acquire. rewrite Hseek. reflexivity. }
  rewrite (load_unfold _ _ _ _ _ _ _ _ Hacq).
  split; [|split].
  - destruct decoder as [d|]; simpl.
    + eexists. split; [reflexivity|]. split; reflexivity.
    + eexists. split; [reflexivity|]. simpl.
      rewrite try_decoders_content, try_decoders_close_calls.
      split; reflexivity.
  - simpl. eexists. split; [reflexivity|]. split; [reflexivity|].
    split; [reflexivity|].
    unfold read. simpl. f_equal.
    + apply drop_ge. lia.
    + unfold set_position. simpl. f_equal. lia.
  - destruct decoder as [d|]; simpl.
    + repeat constructor.
    + rewrite attempts_snoc_close.
      apply try_decoders_attempts_at_zero. reflexivity.
Qed.

Lemma load_copies_unseekable_stream_witness :
  let g := {| has_seek := false; seekable := false;
              content := [Byte.x23; Byte.x0a; Byte.x76; Byte.x20];
              position := 2%N; close_calls := 0 |} in
  let o := load one_file (registry [from_start "c" 3]) "teapot.obj"
             (Some g) None None in
  let left := drop (N.to_nat (position g)) (content g) in
  (exists w, working o = Some w /\ content w = left /\
             close_calls w = 1%nat) /\
  (exists g', replaced o = Some g' /\ close_calls g' = close_calls g /\
              content g' = content g /\ read g' = ([], g')) /\
  Forall (fun a => a.2 = 0%N) (attempts (events o)).
Proof.
  intros g.
  exact (load_copies_unseekable_stream one_file
           (registry [from_start "c" 3]) "teapot.obj" g None None
           eq_refl).
Defined.

(** X6: a stream with [seek] that the caller passes is used in place: its
    bytes are left as they are, the first decode call runs at the offset
    the caller left it at, and [load] closes the caller's stream. *)
Theorem load_uses_seekable_stream_in_place
    {Model Batch : Type} fs
    (get_decoders : string -> list (ModelDecoder Model Batch))
    filename g decoder batch :
  has_seek g = true ->
  let o := load fs get_decoders filename (Some g) decoder batch in
  replaced o = None /\
  (exists w, working o = Some w /\ content w = content g /\
             has_seek w = true /\
             close_calls w = S (close_calls g)) /\
  (forall a, attempts (events o) !! 0%nat = Some a -> a.2 = position g).
Proof.
  intros Hseek o. subst o.
  assert (Hacq : acquire fs filename (Some g) = Some (g, None)).
  { unfold acquire. rewrite Hseek. reflexivity. }
  rewrite (load_unfold _ _ _ _ _ _ _ _ Hacq).
  split; [reflexivity|]. split.
  - destruct decoder as [d|]; simpl.
    + eexists. split; [reflexivity|]. simpl. rewrite Hseek.
      repeat split.
    + eexists. split; [reflexivity|]. simpl.
      rewrite try_decoders_content, try_decoders_close_calls.
      rewrite try_decoders_has_seek.
      split; [reflexivity|]. split; [exact Hseek | reflexivity].
  - intros a. destruct decoder as [d|]; simpl.
    + intros [= <-]. reflexivity.
    + rewrite attempts_snoc_close. intros Ha.
      destruct (try_decoders_attempts_prefix filename batch
                  (get_decoders filename) None g) as [rest Hrest].
      assert (Hl : imap (attempt_of g) (get_decoders filename) !! 0%nat
                   = Some a).
      { rewrite Hrest. apply lookup_app_l_Some. exact Ha. }
      rewrite list_lookup_imap in Hl.
      destruct (get_decoders filename !! 0%nat); [|discriminate].
      injection Hl as <-. reflexivity.
Qed.

Lemma load_uses_seekable_stream_in_place_witness :
  let g := {| has_seek := true; seekable := true;
              content := [Byte.x23; Byte.x0a; Byte.x76; Byte.x20];
              position := 2%N; close_calls := 0 |} in
  let o := load one_file (registry [from_start "c" 3; succeeding "s" 1])
             "teapot.obj" (Some g) None None in
  replaced o = None /\
  (exists w, working o = Some w /\ content w = content g /\
             has_seek w = true /\
             close_calls w = S (close_calls g)) /\
  (forall a, attempts (events o) !! 0%nat = Some a -> a.2 = position g).
Proof.
  intros g.
  exact (load_uses_seekable_stream_in_place one_file
           (registry [from_start "c" 3; succeeding "s" 1]) "teapot.obj"
           g None None eq_refl).
Defined.

(* ===================================================================== *)
(** * Further properties of [Model] *)
(* ===================================================================== *)

Section ModelMore.
Context `{MathLib}.

Lemma map_base_compose f1 f2 (g : Group) :
  map_base f1 (map_base f2 g) = map_base (f1 ∘ f2) g.
Proof. destruct g; reflexivity. Qed.

Lemma map_base_ext f1 f2 (g : Group) :
  (forall b, f1 b = f2 b) -> map_base f1 g = map_base f2 g.
Proof. intros Hext. destruct g; simpl; rewrite Hext; reflexivity. Qed.

(** What the loop of a setter leaves at each address. *)
Lemma lookup_foldl_update upd (ls : list positive) :
  (forall b, upd (upd b) = upd b) ->
  forall (store : gmap positive Group) l,
    foldl (update_object upd) store ls !! l =
    if decide (l ∈ ls) then map_base upd <$> store !! l else store !! l.
Proof.
  intros Hidem. induction ls as [|a ls IH]; intros store l.
  - simpl. destruct (decide (l ∈ [])) as [Hin|_]; [|reflexivity].
    apply elem_of_nil in Hin. contradiction.
  - simpl. rewrite IH. unfold update_object at 1 2.
    destruct (decide (l = a)) as [->|Hne].
    + rewrite lookup_alter_eq.
      destruct (decide (a ∈ a :: ls)) as [_|Hn];
        [|exfalso; apply Hn; left].
      destruct (decide (a ∈ ls)); [|reflexivity].
      destruct (store !! a) as [g|]; [|reflexivity]. simpl.
      rewrite map_base_compose. f_equal. apply map_base_ext. exact Hidem.
    + rewrite lookup_alter_ne by congruence.
      destruct (decide (l ∈ ls)) as [Hin|Hnin];
        destruct (decide (l ∈ a :: ls)) as [Hin'|Hnin']; try reflexivity.
      * exfalso. apply Hnin'. right. exact Hin.
      * exfalso. apply elem_of_cons in Hin' as [?|?]; contradiction.
Qed.

(** Two loops over the same list amount to one loop with the composed
    assignment. *)
Lemma foldl_update_twice upd1 upd2 (ls : list positive)
    (store : gmap positive Group) :
  (forall b, upd1 (upd1 b) = upd1 b) ->
  (forall b, upd2 (upd2 b) = upd2 b) ->
  forall l,
    foldl (update_object upd2) (foldl (update_object upd1) store ls) ls
      !! l =
    if decide (l ∈ ls) then map_base (upd2 ∘ upd1) <$> store !! l
    else store !! l.
Proof.
  intros H1 H2 l. rewrite !lookup_foldl_update by assumption.
  destruct (decide (l ∈ ls)); [|reflexivity].
  destruct (store !! l) as [g|]; [|reflexivity]. simpl.
  rewrite map_base_compose. reflexivity.
Qed.

Lemma set_rotation_idem v b :
  BaseMaterialGroup.set_rotation v (BaseMaterialGroup.set_rotation v b) =
  BaseMaterialGroup.set_rotation v b.
Proof. reflexivity. Qed.

Lemma set_translation_idem v b :
  BaseMaterialGroup.set_translation v
    (BaseMaterialGroup.set_translation v b) =
  BaseMaterialGroup.set_translation v b.
Proof. reflexivity. Qed.

Lemma lookup_rotation_loop v (ls : list positive)
    (store : gmap positive Group) l :
  foldl (Model.assign_rotation v) store ls !! l =
  if decide (l ∈ ls)
  then map_base (BaseMaterialGroup.set_rotation v) <$> store !! l
  else store !! l.
Proof.
  apply (lookup_foldl_update (BaseMaterialGroup.set_rotation v)).
  reflexivity.
Qed.

Lemma lookup_translation_loop v (ls : list positive)
    (store : gmap positive Group) l :
  foldl (Model.assign_translation v) store ls !! l =
  if decide (l ∈ ls)
  then map_base (BaseMaterialGroup.set_translation v) <$> store !! l
  else store !! l.
Proof.
  apply (lookup_foldl_update (BaseMaterialGroup.set_translation v)).
  reflexivity.
Qed.

Lemma zip_snd_take {A B} (l : list A) (k : list B) :
  (zip l k).*2 = take (length l) k.
Proof.
  revert k. induction l as [|x l IH]; intros [|y k]; simpl;
    try reflexivity.
  rewrite IH. reflexivity.
Qed.

Lemma zip_fst_take {A B} (l : list A) (k : list B) :
  (zip l k).*1 = take (length k) l.
Proof.
  revert k. induction l as [|x l IH]; intros [|y k]; simpl;
    try reflexivity.
  rewrite IH. reflexivity.
Qed.

Lemma set_batch_back (self : Model.t) old new :
  Model._batch self = Ref old ->
  Model.set_batch (Ref old) (Model.set_batch (Ref new) self) = self.
Proof. intros Hold. destruct self. simpl in *. subst. reflexivity. Qed.

Lemma migrations_of_set_batch (self : Model.t) b old new :
  Model.migrations_of (Model.set_batch b self) old new =
  Model.migrations_of self old new.
Proof. reflexivity. Qed.

(** The setter on a model that has a batch, for either kind of new
    value. *)
Lemma batch_setter_fresh (self : Model.t) old g :
  Model._batch self = Ref old ->
  Model.batch_setter self RefNone g =
  (Model.set_batch (Ref (fresh (batches g))) self,
   {| batches := {[ fresh (batches g) ]} ∪ batches g;
      migrations := migrations g ++
        Model.migrations_of self old (fresh (batches g)) |},
   Model.Completed).
Proof.
  intros Hold. unfold Model.batch_setter. rewrite Hold.
  destruct (decide (Ref old = RefNone)) as [Heq|_]; [discriminate|].
  simpl. rewrite migrate_loop_Ref. reflexivity.
Qed.

Lemma batch_setter_same (self : Model.t) g :
  Model.batch_setter self (Model._batch self) g =
  (self, g, Model.Completed).
Proof.
  unfold Model.batch_setter.
  destruct (decide (Model._batch self = Model._batch self));
    [reflexivity | contradiction].
Qed.

End ModelMore.

(** X7: what a transform setter leaves in the store, address by address:
    an object listed in [model.groups] (once or several times) has the
    attribute assigned and is otherwise as before; every other object is
    untouched; no object appears or disappears. *)
Theorem setters_change_only_listed_groups `{MathLib}
    (self : Model.t) (v : pyval) (store : gmap positive Group)
    (l : positive) :
  (Model.rotation_setter self v store).2 !! l =
    (if decide (l ∈ Model.groups self)
     then map_base (BaseMaterialGroup.set_rotation v) <$> store !! l
     else store !! l) /\
  (Model.translation_setter self v store).2 !! l =
    (if decide (l ∈ Model.groups self)
     then map_base (BaseMaterialGroup.set_translation v) <$> store !! l
     else store !! l).
Proof.
  split; simpl.
  - apply (lookup_foldl_update (BaseMaterialGroup.set_rotation v)).
    reflexivity.
  - apply (lookup_foldl_update (BaseMaterialGroup.set_translation v)).
    reflexivity.
Qed.

(** X8: assigning the rotation twice leaves the model and the store as a
    single assignment of the last value does; likewise the translation. *)
Theorem setters_last_value_wins `{MathLib}
    (self : Model.t) (v w : pyval) (store : gmap positive Group) :
  (let r := Model.rotation_setter self v store in
   Model.rotation_setter r.1 w r.2 = Model.rotation_setter self w store)
  /\
  (let r := Model.translation_setter self v store in
   Model.translation_setter r.1 w r.2 =
   Model.translation_setter self w store).
Proof.
  split; unfold Model.rotation_setter, Model.translation_setter;
    cbn [fst snd Model.groups Model.vertex_lists Model._batch
         Model._rotation Model._translation];
    f_equal; apply map_eq; intros l.
  - rewrite !lookup_rotation_loop.
    destruct (decide (l ∈ Model.groups self)); [|reflexivity].
    destruct (store !! l) as [[t|m]|]; reflexivity.
  - rewrite !lookup_translation_loop.
    destruct (decide (l ∈ Model.groups self)); [|reflexivity].
    destruct (store !! l) as [[t|m]|]; reflexivity.
Qed.

(** X9: the two transform setters do not interfere: assigning a rotation
    and then a translation gives the same model and the same store as
    assigning them in the other order. *)
Theorem setters_commute `{MathLib}
    (self : Model.t) (v w : pyval) (store : gmap positive Group) :
  (let r := Model.rotation_setter self v store in
   Model.translation_setter r.1 w r.2)
  =
  (let t := Model.translation_setter self w store in
   Model.rotation_setter t.1 v t.2).
Proof.
  unfold Model.rotation_setter, Model.translation_setter;
    cbn [fst snd Model.groups Model.vertex_lists Model._batch
         Model._rotation Model._translation].
  f_equal. apply map_eq. intros l.
  rewrite lookup_translation_loop, !lookup_rotation_loop,
    lookup_translation_loop.
  destruct (decide (l ∈ Model.groups self)); [|reflexivity].
  destruct (store !! l) as [[t|m]|]; reflexivity.
Qed.

(** X10: moving a model to another batch and back restores the model; the
    batches received, in order, one [migrate] call per pair from the old
    batch to the new one and then one per pair from the new batch to the
    old one; no batch was allocated. *)
Theorem batch_setter_round_trip `{MathLib}
    (self : Model.t) (old new : positive) (g : graphics) :
  Model._batch self = Ref old ->
  old <> new ->
  let r1 := Model.batch_setter self (Ref new) g in
  let r2 := Model.batch_setter r1.1.1 (Ref old) r1.1.2 in
  r2 = (self,
        {| batches := batches g;
           migrations := migrations g ++
             Model.migrations_of self old new ++
             Model.migrations_of self new old |},
        Model.Completed).
Proof.
  intros Hold Hne r1 r2. subst r2 r1.
  rewrite (batch_setter_migrates self old new g Hold Hne). simpl.
  rewrite (batch_setter_migrates _ new old); [|reflexivity|congruence].
  simpl. rewrite (set_batch_back self old new Hold), <- app_assoc.
  reflexivity.
Qed.

Lemma batch_setter_round_trip_witness :
  let r1 := Model.batch_setter two_parts (Ref 2) one_batch in
  let r2 := Model.batch_setter r1.1.1 (Ref 1) r1.1.2 in
  r2 = (two_parts,
        {| batches := batches one_batch;
           migrations := migrations one_batch ++
             Model.migrations_of two_parts 1 2 ++
             Model.migrations_of two_parts 2 1 |},
        Model.Completed).
Proof.
  apply (@batch_setter_round_trip term_math two_parts 1%positive
           2%positive one_batch); [reflexivity | discriminate].
Defined.

(** X11: the pairs that are migrated are those of [zip]: their number is
    the smaller of the two list lengths, the vertex lists migrated are the
    first [len(groups)] ones and the groups named are the first
    [len(vertex_lists)] ones, so a vertex list without a group at its
    index is not migrated. *)
Theorem batch_setter_migrates_zipped_pairs `{MathLib}
    (self : Model.t) (old new : positive) (g : graphics) :
  Model._batch self = Ref old ->
  old <> new ->
  let g' := (Model.batch_setter self (Ref new) g).1.2 in
  exists calls,
    migrations g' = migrations g ++ calls /\
    length calls =
      Nat.min (length (Model.groups self))
              (length (Model.vertex_lists self)) /\
    vertex_list <$> calls =
      take (length (Model.groups self)) (Model.vertex_lists self) /\
    group <$> calls =
      take (length (Model.vertex_lists self)) (Model.groups self) /\
    Forall (fun c => source c = old /\ target c = new /\
                     mode c = GL_TRIANGLES) calls.
Proof.
  intros Hold Hne g'. subst g'.
  rewrite (batch_setter_migrates self old new g Hold Hne). simpl.
  exists (Model.migrations_of self old new). split; [reflexivity|].
  unfold Model.migrations_of. split; [|split; [|split]].
  - rewrite length_fmap. apply length_zip_with.
  - rewrite <- list_fmap_compose. apply zip_snd_take.
  - rewrite <- list_fmap_compose. apply zip_fst_take.
  - apply Forall_fmap, Forall_forall. intros pair _. repeat split.
Qed.

Lemma batch_setter_migrates_zipped_pairs_witness :
  let self := @Model.__init__ term_math [20; 21; 22]%positive
                [10; 11]%positive (Ref 1) in
  let g' := (Model.batch_setter self (Ref 2) one_batch).1.2 in
  exists calls,
    migrations g' = migrations one_batch ++ calls /\
    length calls = 2%nat /\
    vertex_list <$> calls = [20; 21]%positive /\
    group <$> calls = [10; 11]%positive /\
    Forall (fun c => source c = 1%positive /\ target c = 2%positive /\
                     mode c = GL_TRIANGLES) calls.
Proof.
  apply (@batch_setter_migrates_zipped_pairs term_math
           (@Model.__init__ term_math [20; 21; 22]%positive
              [10; 11]%positive (Ref 1))
           1%positive 2%positive one_batch);
    [reflexivity | discriminate].
Defined.

(** X12: assigning [None] is never a no-op for a model that has a batch:
    assigning it twice allocates two batches, different from each other
    and from every batch that existed, and migrates the pairs twice, the
    second time out of the first private batch. *)
Theorem batch_setter_None_twice `{MathLib}
    (self : Model.t) (old : positive) (g : graphics) :
  Model._batch self = Ref old ->
  let r1 := Model.batch_setter self RefNone g in
  let r2 := Model.batch_setter r1.1.1 RefNone r1.1.2 in
  exists b1 b2,
    Model._batch r1.1.1 = Ref b1 /\
    Model._batch r2.1.1 = Ref b2 /\
    b1 <> b2 /\ (b1 ∉ batches g) /\ (b2 ∉ batches g) /\
    batches r2.1.2 = {[ b2 ]} ∪ ({[ b1 ]} ∪ batches g) /\
    migrations r2.1.2 =
      migrations g ++ Model.migrations_of self old b1
                   ++ Model.migrations_of self b1 b2 /\
    r2.2 = Model.Completed.
Proof.
  intros Hold r1 r2. subst r2 r1.
  rewrite (batch_setter_fresh self old g Hold). simpl.
  rewrite (batch_setter_fresh _ (fresh (batches g))) by reflexivity.
  simpl.
  set (b1 := fresh (batches g)).
  set (b2 := fresh ({[ b1 ]} ∪ batches g)).
  assert (H1 : b1 ∉ batches g) by apply is_fresh.
  assert (H2 : b2 ∉ {[ b1 ]} ∪ batches g) by apply is_fresh.
  exists b1, b2. split; [reflexivity|]. split; [reflexivity|].
  split; [set_solver|]. split; [exact H1|]. split; [set_solver|].
  split; [reflexivity|]. split; [|reflexivity].
  rewrite <- app_assoc. reflexivity.
Qed.

Lemma batch_setter_None_twice_witness :
  let r1 := Model.batch_setter two_parts RefNone one_batch in
  let r2 := Model.batch_setter r1.1.1 RefNone r1.1.2 in
  exists b1 b2,
    Model._batch r1.1.1 = Ref b1 /\
    Model._batch r2.1.1 = Ref b2 /\
    b1 <> b2 /\ (b1 ∉ batches one_batch) /\
    (b2 ∉ batches one_batch) /\
    batches r2.1.2 = {[ b2 ]} ∪ ({[ b1 ]} ∪ batches one_batch) /\
    migrations r2.1.2 =
      migrations one_batch ++ Model.migrations_of two_parts 1 b1
                           ++ Model.migrations_of two_parts b1 b2 /\
    r2.2 = Model.Completed.
Proof.
  apply (@batch_setter_None_twice term_math two_parts 1%positive
           one_batch).
  reflexivity.
Defined.

(** X13: after the batch setter moved a model that has a batch to another
    batch, assigning that batch again does nothing, and [draw] asks the
    new batch, not the old one, to draw all of [model.vertex_lists]. *)
Theorem batch_setter_then_draw `{MathLib}
    (self : Model.t) (old new : positive) (g : graphics) :
  Model._batch self = Ref old ->
  old <> new ->
  let r := Model.batch_setter self (Ref new) g in
  Model.batch_setter r.1.1 (Ref new) r.1.2 = (r.1.1, r.1.2, Model.Completed)
  /\
  Model.draw r.1.1 =
    Some {| Model.receiver := new;
            Model.subset := Model.vertex_lists self |}.
Proof.
  intros Hold Hne r. subst r.
  rewrite (batch_setter_migrates self old new g Hold Hne). simpl.
  split; [|reflexivity].
  apply (batch_setter_same (Model.set_batch (Ref new) self)).
Qed.

Lemma batch_setter_then_draw_witness :
  let r := Model.batch_setter two_parts (Ref 2) one_batch in
  Model.batch_setter r.1.1 (Ref 2) r.1.2 = (r.1.1, r.1.2, Model.Completed)
  /\
  Model.draw r.1.1 =
    Some {| Model.receiver := 2; Model.subset := [20; 21]%positive |}.
Proof.
  apply (@batch_setter_then_draw term_math two_parts 1%positive
           2%positive one_batch); [reflexivity | discriminate].
Defined.

(* ===================================================================== *)
(** * Further properties of the rendering groups *)
(* ===================================================================== *)

Section GroupMore.
Context `{MathLib}.

Lemma set_state_unfold (g : Group) :
  set_state g =
  then_modelview (bindings g)
    (BaseMaterialGroup._set_modelview_matrix (group_base g)).
Proof. destruct g; reflexivity. Qed.

Lemma bindings_end_with_program (g : Group) :
  last (bindings g) =
  Some (program_use (BaseMaterialGroup.program (group_base g))).
Proof. destruct g; reflexivity. Qed.

Lemma bindings_no_view_assign (g : Group) :
  Forall (fun c => is_view_assign c = false) (bindings g).
Proof. destruct g; repeat constructor. Qed.

Lemma set_state_with_view (g : Group) V :
  BaseMaterialGroup.view_matrix (group_base g) = Some V ->
  set_state g =
  {| calls := bindings g ++
       [view_assign (BaseMaterialGroup.program (group_base g))
          "WindowBlock" V];
     raised := false |}.
Proof.
  intros HV. rewrite set_state_unfold.
  unfold BaseMaterialGroup._set_modelview_matrix. rewrite HV.
  reflexivity.
Qed.

Lemma set_state_without_view (g : Group) :
  BaseMaterialGroup.view_matrix (group_base g) = None ->
  set_state g = {| calls := bindings g; raised := true |}.
Proof.
  intros HV. rewrite set_state_unfold.
  unfold BaseMaterialGroup._set_modelview_matrix. rewrite HV.
  reflexivity.
Qed.

Lemma view_matrix_bad_rotation (b : BaseMaterialGroup.t) i :
  (i < 3)%nat ->
  getitem (BaseMaterialGroup.rotation b) i ≫= as_float = None ->
  BaseMaterialGroup.view_matrix b = None.
Proof.
  intros Hi Hbad. unfold BaseMaterialGroup.view_matrix.
  destruct (from_translation_star (BaseMaterialGroup.translation b));
    [|reflexivity].
  simpl. unfold radians_item.
  destruct i as [|[|[|i]]]; [| | |lia].
  - rewrite Hbad. reflexivity.
  - destruct (getitem (BaseMaterialGroup.rotation b) 0 ≫= as_float);
      [|reflexivity].
    simpl. rewrite Hbad. reflexivity.
  - destruct (getitem (BaseMaterialGroup.rotation b) 0 ≫= as_float);
      [|reflexivity].
    simpl.
    destruct (getitem (BaseMaterialGroup.rotation b) 1 ≫= as_float);
      [|reflexivity].
    simpl. rewrite Hbad. reflexivity.
Qed.

Lemma group_hash_map_base `{!Builtins} upd (g : Group) :
  (forall b, BaseMaterialGroup.parent (upd b) = BaseMaterialGroup.parent b)
  -> group_hash (map_base upd g) = group_hash g.
Proof.
  intros Hp. destruct g as [t|m]; simpl;
    unfold TexturedMaterialGroup.__hash__,
      TexturedMaterialGroup.hash_argument, MaterialGroup.__hash__,
      MaterialGroup.hash_argument; simpl; rewrite Hp; reflexivity.
Qed.

End GroupMore.

(** X14: when one of [rotation[0]], [rotation[1]], [rotation[2]] is missing
    or is not a number, [set_state] raises, for a group of either class:
    by then the program has been activated (and, for a textured group, the
    texture bound), and nothing is assigned to [view]. *)
Theorem set_state_raises_on_bad_rotation `{MathLib} (g : Group) (i : nat) :
  (i < 3)%nat ->
  getitem (BaseMaterialGroup.rotation (group_base g)) i ≫= as_float
    = None ->
  raised (set_state g) = true /\
  calls (set_state g) = bindings g /\
  last (calls (set_state g)) =
    Some (program_use (BaseMaterialGroup.program (group_base g))) /\
  Forall (fun c => is_view_assign c = false) (calls (set_state g)).
Proof.
  intros Hi Hbad.
  rewrite (set_state_without_view g
             (view_matrix_bad_rotation (group_base g) i Hi Hbad)).
  simpl. split; [reflexivity|]. split; [reflexivity|].
  split; [apply bindings_end_with_program | apply bindings_no_view_assign].
Qed.

Lemma set_state_raises_on_bad_rotation_witness :
  let g := @Textured term_math
             {| TexturedMaterialGroup.base :=
                  BaseMaterialGroup.set_rotation
                    (PyTuple [PyInt 90; PyInt 0])
                    (BaseMaterialGroup.__init__ TexturedDefaultProgram
                                                plain);
                TexturedMaterialGroup.texture :=
                  {| texture_id := 3; texture_target := 3553 |} |} in
  raised (set_state g) = true /\
  calls (set_state g) =
    [@glActiveTexture term_math GL_TEXTURE0; glBindTexture 3553 3;
     program_use TexturedDefaultProgram] /\
  last (calls (set_state g)) =
    Some (@program_use term_math TexturedDefaultProgram) /\
  Forall (fun c => is_view_assign c = false) (calls (set_state g)).
Proof.
  intros g.
  apply (@set_state_raises_on_bad_rotation term_math g 2%nat);
    [lia | reflexivity].
Defined.

(** X15: only the first three entries of the rotation are looked at: a
    group whose rotation has further entries does in [set_state] what it
    does with the rotation cut to three entries. *)
Theorem set_state_ignores_further_rotation_entries `{MathLib}
    (g : Group) (x y z : pyval) (more : list pyval) :
  BaseMaterialGroup.rotation (group_base g) = PyTuple (x :: y :: z :: more)
  ->
  set_state g =
  set_state (map_base (BaseMaterialGroup.set_rotation (PyTuple [x; y; z]))
                      g).
Proof.
  intros Hrot. rewrite !set_state_unfold.
  destruct g as [t|m]; simpl in *;
    unfold BaseMaterialGroup._set_modelview_matrix,
      BaseMaterialGroup.view_matrix, radians_item; simpl;
    rewrite Hrot; reflexivity.
Qed.

Lemma set_state_ignores_further_rotation_entries_witness :
  let b := BaseMaterialGroup.__init__ MaterialDefaultProgram plain in
  @set_state term_math
    (Untextured
       {| MaterialGroup.base :=
            BaseMaterialGroup.set_rotation
              (PyTuple [PyInt 90; PyInt 45; PyInt 30; PyNone]) b |}) =
  @set_state term_math
    (Untextured
       {| MaterialGroup.base :=
            BaseMaterialGroup.set_rotation
              (PyTuple [PyInt 90; PyInt 45; PyInt 30]) b |}).
Proof.
  intros b.
  exact (@set_state_ignores_further_rotation_entries term_math
           (Untextured
              {| MaterialGroup.base :=
                   BaseMaterialGroup.set_rotation
                     (PyTuple [PyInt 90; PyInt 45; PyInt 30; PyNone]) b |})
           (PyInt 90) (PyInt 45) (PyInt 30) [PyNone] eq_refl).
Defined.

(** X16: [set_state] does not look at the material (nor at the parent):
    two groups of the same class with the same program, rotation and
    translation (and, if textured, the same texture) make the same GL
    calls, whatever their materials are. *)
Theorem set_state_ignores_material `{MathLib}
    (b1 b2 : BaseMaterialGroup.t) (texture : Texture) :
  BaseMaterialGroup.program b1 = BaseMaterialGroup.program b2 ->
  BaseMaterialGroup.rotation b1 = BaseMaterialGroup.rotation b2 ->
  BaseMaterialGroup.translation b1 = BaseMaterialGroup.translation b2 ->
  MaterialGroup.set_state {| MaterialGroup.base := b1 |} =
  MaterialGroup.set_state {| MaterialGroup.base := b2 |} /\
  TexturedMaterialGroup.set_state
    {| TexturedMaterialGroup.base := b1;
       TexturedMaterialGroup.texture := texture |} =
  TexturedMaterialGroup.set_state
    {| TexturedMaterialGroup.base := b2;
       TexturedMaterialGroup.texture := texture |}.
Proof.
  intros Hp Hr Ht.
  unfold MaterialGroup.set_state, TexturedMaterialGroup.set_state,
    BaseMaterialGroup._set_modelview_matrix,
    BaseMaterialGroup.view_matrix.
  simpl. rewrite Hp, Hr, Ht. split; reflexivity.
Qed.

Lemma set_state_ignores_material_witness :
  let b1 := BaseMaterialGroup.__init__ MaterialDefaultProgram plain in
  let b2 := BaseMaterialGroup.__init__ MaterialDefaultProgram shiny in
  let texture := {| texture_id := 3; texture_target := 3553 |} in
  MaterialGroup.set_state {| MaterialGroup.base := b1 |} =
  MaterialGroup.set_state {| MaterialGroup.base := b2 |} /\
  TexturedMaterialGroup.set_state
    {| TexturedMaterialGroup.base := b1;
       TexturedMaterialGroup.texture := texture |} =
  TexturedMaterialGroup.set_state
    {| TexturedMaterialGroup.base := b2;
       TexturedMaterialGroup.texture := texture |}.
Proof.
  intros b1 b2 texture.
  apply (@set_state_ignores_material term_math b1 b2 texture);
    reflexivity.
Defined.

(** X17: the transform setters of a model do not change the hash of any
    group object: a group that is a key of a hash table stays where it
    is when the model is rotated or translated. *)
Theorem setters_keep_group_hash `{MathLib} `{!Builtins}
    (self : Model.t) (v : pyval) (store : gmap positive Group)
    (l : positive) (g : Group) :
  store !! l = Some g ->
  (exists g', (Model.rotation_setter self v store).2 !! l = Some g' /\
              group_hash g' = group_hash g) /\
  (exists g', (Model.translation_setter self v store).2 !! l = Some g' /\
              group_hash g' = group_hash g).
Proof.
  intros Hg. split; simpl.
  - rewrite lookup_rotation_loop, Hg.
    destruct (decide (l ∈ Model.groups self)); simpl.
    + eexists. split; [reflexivity|].
      apply group_hash_map_base. reflexivity.
    + eexists. split; reflexivity.
  - rewrite lookup_translation_loop, Hg.
    destruct (decide (l ∈ Model.groups self)); simpl.
    + eexists. split; [reflexivity|].
      apply group_hash_map_base. reflexivity.
    + eexists. split; reflexivity.
Qed.

Lemma setters_keep_group_hash_witness :
  let v := @PyTuple term_math [PyInt 90; PyInt 0; PyInt 0] in
  let g := @Untextured term_math (MaterialGroup.__init__ plain) in
  (exists g', (Model.rotation_setter two_parts v two_groups).2
                !! 11%positive = Some g' /\
              @group_hash term_math term_builtins g' =
              @group_hash term_math term_builtins g) /\
  (exists g', (Model.translation_setter two_parts v two_groups).2
                !! 11%positive = Some g' /\
              @group_hash term_math term_builtins g' =
              @group_hash term_math term_builtins g).
Proof.
  intros v g.
  apply (@setters_keep_group_hash term_math term_builtins two_parts v
           two_groups 11%positive g).
  reflexivity.
Defined.

(** X18: the hash of a group is decided by its parent and, for a textured
    group, its texture: groups that agree on these have the same hash,
    whatever their materials and transforms, although [==] between them
    is [False]. *)
Theorem equal_hash_of_unequal_groups `{MathLib} `{!Builtins}
    (t1 t2 : TexturedMaterialGroup.t) (m1 m2 : MaterialGroup.t)
    (a1 a2 : positive) :
  BaseMaterialGroup.parent (TexturedMaterialGroup.base t1) =
  BaseMaterialGroup.parent (TexturedMaterialGroup.base t2) ->
  TexturedMaterialGroup.texture t1 = TexturedMaterialGroup.texture t2 ->
  BaseMaterialGroup.parent (MaterialGroup.base m1) =
  BaseMaterialGroup.parent (MaterialGroup.base m2) ->
  (TexturedMaterialGroup.__hash__ t1 = TexturedMaterialGroup.__hash__ t2 /\
   py_eq (GroupObject a1 (Textured t1)) (GroupObject a2 (Textured t2))
     = false) /\
  (MaterialGroup.__hash__ m1 = MaterialGroup.__hash__ m2 /\
   py_eq (GroupObject a1 (Untextured m1)) (GroupObject a2 (Untextured m2))
     = false).
Proof.
  intros Hp Ht Hm.
  unfold TexturedMaterialGroup.__hash__,
    TexturedMaterialGroup.hash_argument, MaterialGroup.__hash__,
    MaterialGroup.hash_argument.
  rewrite Hp, Ht, Hm. repeat split.
Qed.

Lemma equal_hash_of_unequal_groups_witness :
  let texture := {| texture_id := 3; texture_target := 3553 |} in
  let t1 := TexturedMaterialGroup.__init__ plain texture in
  let t2 := TexturedMaterialGroup.__init__ shiny texture in
  let m1 := MaterialGroup.__init__ plain in
  let m2 := MaterialGroup.__init__ shiny in
  (@TexturedMaterialGroup.__hash__ term_math term_builtins t1 =
   @TexturedMaterialGroup.__hash__ term_math term_builtins t2 /\
   py_eq (GroupObject 10 (Textured t1)) (GroupObject 11 (Textured t2))
     = false) /\
  (@MaterialGroup.__hash__ term_math term_builtins m1 =
   @MaterialGroup.__hash__ term_math term_builtins m2 /\
   py_eq (GroupObject 10 (Untextured m1)) (GroupObject 11 (Untextured m2))
     = false).
Proof.
  intros texture t1 t2 m1 m2.
  apply (@equal_hash_of_unequal_groups term_math term_builtins
           t1 t2 m1 m2 10%positive 11%positive);
    reflexivity.
Defined.

(** X19: from the model to the uniform block: after the rotation setter
    ran with a value that has numbers at indices 0, 1 and 2 and the
    translation setter ran with three numbers, [set_state] of every group
    of the model completes and ends by assigning to [view] the product
    ((Rz @ Ry) @ Rx) @ T built from these values. *)
Theorem model_transform_reaches_view `{MathLib}
    (self : Model.t) (store : gmap positive Group) (l : positive)
    (g : Group) (v a b c : pyval) tx ty tz rx ry rz :
  l ∈ Model.groups self ->
  store !! l = Some g ->
  getitem v 0 ≫= as_float = Some rx ->
  getitem v 1 ≫= as_float = Some ry ->
  getitem v 2 ≫= as_float = Some rz ->
  as_float a = Some tx -> as_float b = Some ty -> as_float c = Some tz ->
  let r1 := Model.rotation_setter self v store in
  let r2 := Model.translation_setter r1.1 (PyTuple [a; b; c]) r1.2 in
  exists g',
    r2.2 !! l = Some g' /\
    raised (set_state g') = false /\
    last (calls (set_state g')) =
      Some (view_assign (BaseMaterialGroup.program (group_base g))
              "WindowBlock"
              (matmul
                 (matmul
                    (matmul (rotate Mat4_new (radians rz) AxisZ)
                            (rotate Mat4_new (radians ry) AxisY))
                    (rotate Mat4_new (radians rx) AxisX))
                 (from_translation tx ty tz))).
Proof.
  intros Hin Hg Hx Hy Hz Ha Hb Hc r1 r2. subst r2 r1.
  unfold Model.rotation_setter, Model.translation_setter.
  cbn [fst snd Model.groups].
  rewrite lookup_translation_loop, lookup_rotation_loop, Hg.
  destruct (decide (l ∈ Model.groups self)) as [_|Hn]; [|contradiction].
  simpl. eexists. split; [reflexivity|].
  set (g' := map_base _ (map_base _ g)).
  assert (HV : BaseMaterialGroup.view_matrix (group_base g') =
               Some (matmul
                 (matmul
                    (matmul (rotate Mat4_new (radians rz) AxisZ)
                            (rotate Mat4_new (radians ry) AxisY))
                    (rotate Mat4_new (radians rx) AxisX))
                 (from_translation tx ty tz))).
  { apply (view_matrix_composition _ a b c); try assumption;
      subst g'; destruct g; simpl; try reflexivity; assumption. }
  rewrite (set_state_with_view g' _ HV). simpl.
  split; [reflexivity|]. rewrite last_snoc.
  subst g'. destruct g; reflexivity.
Qed.

Lemma model_transform_reaches_view_witness :
  let r1 := Model.rotation_setter two_parts
              (@PyTuple term_math [PyInt 90; PyInt 45; PyInt 30])
              two_groups in
  let r2 := Model.translation_setter r1.1
              (PyTuple [PyInt 1; PyInt 2; PyInt 3]) r1.2 in
  exists g',
    r2.2 !! 10%positive = Some g' /\
    raised (set_state g') = false /\
    last (calls (set_state g')) =
      Some (@view_assign term_math TexturedDefaultProgram "WindowBlock"
              (MMatmul
                 (MMatmul
                    (MMatmul (MRotate MNew (FRadians (FInt 30)) AxisZ)
                             (MRotate MNew (FRadians (FInt 45)) AxisY))
                    (MRotate MNew (FRadians (FInt 90)) AxisX))
                 (MTranslation (FInt 1) (FInt 2) (FInt 3)))).
Proof.
  apply (@model_transform_reaches_view term_math two_parts two_groups
           10%positive
           (Textured (TexturedMaterialGroup.__init__ plain
                        {| texture_id := 3; texture_target := 3553 |}))
           (PyTuple [PyInt 90; PyInt 45; PyInt 30])
           (PyInt 1) (PyInt 2) (PyInt 3)
           (FInt 1) (FInt 2) (FInt 3) (FInt 90) (FInt 45) (FInt 30));
    try reflexivity.
  apply list_elem_of_here.
Defined.

(** X20: for a textured group, [set_state] followed by [unset_state]
    leaves texture 0 bound to the group's texture target and every other
    target as it was, whether or not [set_state] raised; the group's
    program stays in use, [unset_state] does not deactivate it. *)
Theorem unset_state_unbinds_texture `{MathLib}
    (t : TexturedMaterialGroup.t) (target before : Z)
    (used : option ShaderProgram) :
  let cs := calls (TexturedMaterialGroup.set_state t) ++
            TexturedMaterialGroup.unset_state t in
  bound_texture target before cs =
    (if decide (texture_target (TexturedMaterialGroup.texture t) = target)
     then 0 else before) /\
  program_in_use used cs =
    Some (BaseMaterialGroup.program (TexturedMaterialGroup.base t)).
Proof.
  intros cs. subst cs.
  unfold TexturedMaterialGroup.set_state,
    TexturedMaterialGroup.unset_state, bound_texture, program_in_use.
  destruct (BaseMaterialGroup._set_modelview_matrix
              (TexturedMaterialGroup.base t)) as [c|] eqn:Hc; simpl.
  - unfold BaseMaterialGroup._set_modelview_matrix in Hc.
    destruct (BaseMaterialGroup.view_matrix
                (TexturedMaterialGroup.base t)); [|discriminate].
    injection Hc as <-. simpl.
    destruct (decide (texture_target (TexturedMaterialGroup.texture t)
                      = target)); split; reflexivity.
  - destruct (decide (texture_target (TexturedMaterialGroup.texture t)
                      = target)); split; reflexivity.
Qed.
